(** * The HTTP/2 connection of h2spacex

    A shallow embedding of [src/h2spacex/h2_connection.py] (class
    [H2Connection]) and the properties of its lifecycle, of its stream
    identifier allocator, of its request splitter and of its response
    reader.

    The class is a mutable Python object that talks to a TCP socket and
    prints to the console.  It is embedded as a state-and-exception monad
    over a pair: the object's attributes ([H2Connection]) and the world
    around it ([world]: the network's answers, the trace of socket calls,
    the console).  Every method keeps its Python name. *)

From Stdlib Require Import ZArith NArith Lia.
From Stdlib.Strings Require Import Byte.
From stdpp Require Import base gmap strings list.

Local Open Scope Z_scope.

(** ** Python values *)

Abbreviation bytes := (list byte).

(** A Python [str] is a sequence of Unicode code points. *)
Abbreviation pystr := (list N).

(** The objects a caller can pass where the code expects a number.  A finite
    float is kept as mantissa and binary exponent; the code never computes
    with one. *)
Inductive pyval :=
| PyNone
| PyBool (b : bool)
| PyInt (z : Z)
| PyFloat (mantissa exponent : Z)
| PyStr (s : pystr).

(** [isinstance(v, int)]: [bool] is a subclass of [int], with [True == 1]
    and [False == 0]. *)
Definition as_int (v : pyval) : option Z :=
  match v with
  | PyInt z => Some z
  | PyBool b => Some (if b then 1 else 0)
  | _ => None
  end.

Definition isinstance_int (v : pyval) : bool :=
  match as_int v with Some _ => true | None => false end.

(** The exceptions the code meets.  [SocketTimeout] is [socket.timeout];
    [OSError] stands for every other socket error (connection refused,
    broken pipe, blocking I/O, ...). *)
Inductive exn :=
| AttributeError (msg : string)
| ValueError (msg : string)
| KeyError (key : string)
| IndexError (msg : string)
| TypeError (msg : string)
| UnboundLocalError (name : string)
| UnicodeEncodeError
| OSError (msg : string)
| SocketTimeout
| CodecError (msg : string)
| KeyboardInterrupt
| SystemExit (code : Z).

(** [except Exception] catches everything but the [BaseException]s. *)
Definition is_Exception (e : exn) : bool :=
  match e with
  | KeyboardInterrupt | SystemExit _ => false
  | _ => true
  end.

Definition is_socket_timeout (e : exn) : bool :=
  match e with SocketTimeout => true | _ => false end.

(** What a call does: it returns, it raises, or it never comes back
    (a read on a socket on which nothing will ever arrive). *)
Inductive outcome (A : Type) :=
| Ret (a : A)
| Raise (e : exn)
| Blocked.
Arguments Ret {A} a.
Arguments Raise {A} e.
Arguments Blocked {A}.

(** *** [bytes(body, 'utf-8')] *)

Definition byte_of_N (n : N) : byte :=
  match Byte.of_N (n mod 256)%N with Some b => b | None => x00 end.

(** One code point; lone surrogates cannot be encoded. *)
Definition utf8_encode_cp (c : N) : option bytes :=
  (if c <? 0x80 then Some [byte_of_N c]
   else if c <? 0x800 then
     Some [byte_of_N (0xC0 + c / 64); byte_of_N (0x80 + c mod 64)]
   else if (0xD800 <=? c) && (c <=? 0xDFFF) then None
   else if c <? 0x10000 then
     Some [byte_of_N (0xE0 + c / 4096); byte_of_N (0x80 + (c / 64) mod 64);
           byte_of_N (0x80 + c mod 64)]
   else if c <? 0x110000 then
     Some [byte_of_N (0xF0 + c / 262144); byte_of_N (0x80 + (c / 4096) mod 64);
           byte_of_N (0x80 + (c / 64) mod 64); byte_of_N (0x80 + c mod 64)]
   else None)%N.

Fixpoint utf8_encode (s : pystr) : outcome bytes :=
  match s with
  | [] => Ret []
  | c :: s' =>
      match utf8_encode_cp c with
      | None => Raise UnicodeEncodeError
      | Some bs =>
          match utf8_encode s' with
          | Ret rest => Ret (bs ++ rest)
          | r => r
          end
      end
  end.

(** Truth value of a [str]-or-[None] argument: [if body:]. *)
Definition truthy (s : option pystr) : bool :=
  match s with
  | Some (_ :: _) => true
  | _ => false
  end.

(** ** Frames (scapy's [H2Frame] and [H2Seq]) *)

Record H2Setting := { setting_id : Z; setting_value : Z }.

Inductive frame_payload :=
| H2HeadersFrame (hdrs : list (pystr * pystr))
| H2ContinuationFrame (hdrs : list (pystr * pystr))
| H2DataFrame (data : bytes)
| H2SettingsFrame (settings : list H2Setting)
| H2PingFrame (opaque : bytes)
| H2GoAwayFrame (last_stream_id error : Z).

(** [flags] is a Python set of flag names (['ES'], ['EH'], ...). *)
Record H2Frame := {
  flags : gset string;
  stream_id : Z;
  payload : frame_payload
}.

Abbreviation H2Seq := (list H2Frame).

Definition set_flags (fl : gset string) (f : H2Frame) : H2Frame :=
  {| flags := fl; stream_id := stream_id f; payload := payload f |}.

Definition set_payload (p : frame_payload) (f : H2Frame) : H2Frame :=
  {| flags := flags f; stream_id := stream_id f; payload := p |}.

(** [frame.data]: only a DATA frame has the attribute. *)
Definition frame_data (f : H2Frame) : option bytes :=
  match payload f with
  | H2DataFrame d => Some d
  | _ => None
  end.

(** The body bytes a frame sequence carries: the DATA payloads, in order. *)
Definition seq_data (fs : H2Seq) : bytes :=
  concat (omap frame_data fs).

(** [data[-1:]] and [data[:-1]]. *)
Definition last_slice (d : bytes) : bytes := drop (length d - 1)%nat d.
Definition but_last_slice (d : bytes) : bytes := take (length d - 1)%nat d.

(** The body as the frame builder receives it: [None], an (empty) [str]
    left as it is, or the encoded [bytes]. *)
Inductive body_arg :=
| BodyNone
| BodyStr (s : pystr)
| BodyBytes (b : bytes).

(** ** The socket and the world *)

Record socket := { fileno : nat }.

Inductive recv_event :=
| Received (data : bytes)
| RecvRaises (e : exn).

Inductive io_event :=
| IoConnect (s : socket) (host : pystr) (port : Z) (via_proxy : bool) (res : option exn)
| IoSend (s : socket) (data : bytes) (res : option exn)
| IoSetTimeout (s : socket) (t : pyval) (res : option exn)
| IoRecv (s : socket) (res : recv_event)
| IoClose (s : socket).

(** What is printed, by the [print] call that prints it. *)
Inductive message :=
| MsgSetupError (e : exn)
| MsgConnected (via_proxy : bool) (host : pystr) (port : Z)
| MsgPrefaceSent
| MsgSendError (e : exn)
| MsgSettingsSent
| MsgBadStreamCount (v : pyval)
| MsgRequestInfo (sid : Z) (method authority scheme path headers : pystr) (body : option pystr).

(** The network decides how each socket call ends.  [connect_outcome] and
    [send_outcome] are asked with the number of socket calls made so far;
    [None] is success.  [inbound] is what the successive [recv] calls will
    meet; when it is exhausted nothing ever arrives and [recv] does not
    return. *)
Record world := {
  connect_outcome : nat → option exn;
  send_outcome : nat → option exn;
  settimeout_outcome : pyval → option exn;
  inbound : list recv_event;
  io_trace : list io_event;
  console : list message
}.

Definition log_io (ev : io_event) (w : world) : world :=
  {| connect_outcome := connect_outcome w; send_outcome := send_outcome w;
     settimeout_outcome := settimeout_outcome w; inbound := inbound w;
     io_trace := io_trace w ++ [ev]; console := console w |}.

Definition log_console (m : message) (w : world) : world :=
  {| connect_outcome := connect_outcome w; send_outcome := send_outcome w;
     settimeout_outcome := settimeout_outcome w; inbound := inbound w;
     io_trace := io_trace w; console := console w ++ [m] |}.

Definition set_inbound (evs : list recv_event) (w : world) : world :=
  {| connect_outcome := connect_outcome w; send_outcome := send_outcome w;
     settimeout_outcome := settimeout_outcome w; inbound := evs;
     io_trace := io_trace w; console := console w |}.

(** The byte strings the socket accepted, oldest first. *)
Definition wire (w : world) : list bytes :=
  omap (λ ev, match ev with IoSend _ d None => Some d | _ => None end) (io_trace w).

(** The byte strings handed to [send], accepted or not. *)
Definition send_calls (w : world) : list bytes :=
  omap (λ ev, match ev with IoSend _ d _ => Some d | _ => None end) (io_trace w).

(** ** The collaborators

    [h2_frames] and [utils] (modules of the package) and scapy's frame
    serialisation are used through their interfaces only: the connection
    class is verified for every implementation of them. *)
Class Collaborators := {
  (** scapy: [bytes(frame)] and [bytes(h2seq)] *)
  raw : H2Frame → bytes;
  raw_seq : H2Seq → bytes;
  (** [h2_frames.create_go_away_frame(err_code)] *)
  create_go_away_frame : Z → H2Frame;
  (** [h2_frames.create_ping_frame(ping_data)] *)
  create_ping_frame : pystr → H2Frame;
  (** [h2_frames.create_settings_frame(settings)] *)
  create_settings_frame : list H2Setting → H2Frame;
  (** [h2_frames.create_headers_frame(method, authority, scheme, path,
      headers_string, stream_id, body)] *)
  create_headers_frame :
    pystr → pystr → pystr → pystr → pystr → Z → body_arg → outcome H2Seq;
  (** [h2_frames.parse_response_frames_bytes(frame_bytes, socket_obj,
      is_verbose)]: it is handed the socket, never the connection object *)
  parse_response_frames_bytes :
    bytes → option socket → bool → world → outcome unit * world;
  (** [utils.make_header_names_small(headers_string)] *)
  make_header_names_small : pystr → pystr
}.

(** ** The connection object *)

Record setting_entry := { entry_id : Z; entry_value : option Z }.

(** A [dict] with [str] keys, as its items in insertion order. *)
Abbreviation dict := (list (string * setting_entry)).

Fixpoint dict_get (d : dict) (k : string) : option setting_entry :=
  match d with
  | [] => None
  | (k', e) :: d' => if String.eqb k' k then Some e else dict_get d' k
  end.

Definition dict_keys (d : dict) : list string := d.*1.

Record H2Connection := {
  hostname : pystr;
  port_number : Z;
  proxy_hostname : option pystr;
  proxy_port_number : option Z;
  raw_socket : option socket;
  read_timeout : pyval;
  last_used_stream_id : Z;
  is_connection_closed : bool;
  DEFAULT_SETTINGS : dict
}.

(** [hex_bytes('505249202a20485454502f322e300d0a0d0a534d0d0a0d0a')] *)
Definition H2_PREFACE : bytes :=
  [x50; x52; x49; x20; x2a; x20; x48; x54; x54; x50; x2f; x32; x2e; x30;
   x0d; x0a; x0d; x0a; x53; x4d; x0d; x0a; x0d; x0a].

Definition default_settings_table : dict :=
  [("SETTINGS_HEADER_TABLE_SIZE"%string, {| entry_id := 1; entry_value := Some 4096 |});
   ("SETTINGS_ENABLE_PUSH"%string, {| entry_id := 2; entry_value := Some 0 |});
   ("SETTINGS_MAX_CONCURRENT_STREAMS"%string, {| entry_id := 3; entry_value := Some 100 |});
   ("SETTINGS_INITIAL_WINDOW_SIZE"%string, {| entry_id := 4; entry_value := Some 65535 |});
   ("SETTINGS_MAX_FRAME_SIZE"%string, {| entry_id := 5; entry_value := Some 16384 |});
   ("SETTINGS_MAX_HEADER_LIST_SIZE"%string, {| entry_id := 6; entry_value := None |})].

(** [H2Connection.__init__] *)
Definition init (hostname : pystr) (port_number : Z) (read_timeout : pyval)
    (proxy_hostname : option pystr) (proxy_port_number : option Z) : H2Connection :=
  {| hostname := hostname;
     port_number := port_number;
     proxy_hostname := proxy_hostname;
     proxy_port_number := proxy_port_number;
     raw_socket := None;
     read_timeout := read_timeout;
     last_used_stream_id := 1;
     is_connection_closed := true;
     DEFAULT_SETTINGS := default_settings_table |}.

Definition set_raw_socket (s : option socket) (c : H2Connection) : H2Connection :=
  {| hostname := hostname c; port_number := port_number c;
     proxy_hostname := proxy_hostname c; proxy_port_number := proxy_port_number c;
     raw_socket := s; read_timeout := read_timeout c;
     last_used_stream_id := last_used_stream_id c;
     is_connection_closed := is_connection_closed c;
     DEFAULT_SETTINGS := DEFAULT_SETTINGS c |}.

Definition set_last_used_stream_id (i : Z) (c : H2Connection) : H2Connection :=
  {| hostname := hostname c; port_number := port_number c;
     proxy_hostname := proxy_hostname c; proxy_port_number := proxy_port_number c;
     raw_socket := raw_socket c; read_timeout := read_timeout c;
     last_used_stream_id := i;
     is_connection_closed := is_connection_closed c;
     DEFAULT_SETTINGS := DEFAULT_SETTINGS c |}.

Definition set_is_connection_closed (b : bool) (c : H2Connection) : H2Connection :=
  {| hostname := hostname c; port_number := port_number c;
     proxy_hostname := proxy_hostname c; proxy_port_number := proxy_port_number c;
     raw_socket := raw_socket c; read_timeout := read_timeout c;
     last_used_stream_id := last_used_stream_id c;
     is_connection_closed := b;
     DEFAULT_SETTINGS := DEFAULT_SETTINGS c |}.

(** ** The monad of methods *)

Record state := { self : H2Connection; env : world }.

Definition M (A : Type) : Type := state → outcome A * state.

#[global] Instance outcome_ret : MRet outcome := λ A a, Ret a.
#[global] Instance outcome_bind : MBind outcome := λ A B f m,
  match m with
  | Ret a => f a
  | Raise e => Raise e
  | Blocked => Blocked
  end.

#[global] Instance M_ret : MRet M := λ A a st, (Ret a, st).
#[global] Instance M_bind : MBind M := λ A B f m st,
  match m st with
  | (Ret a, st') => f a st'
  | (Raise e, st') => (Raise e, st')
  | (Blocked, st') => (Blocked, st')
  end.

Definition raise {A} (e : exn) : M A := λ st, (Raise e, st).

Definition lift {A} (r : outcome A) : M A := λ st, (r, st).

Definition blocked {A} : M A := λ st, (Blocked, st).

Definition get_self : M H2Connection := λ st, (Ret (self st), st).

Definition update_self (f : H2Connection → H2Connection) : M unit :=
  λ st, (Ret tt, {| self := f (self st); env := env st |}).

Definition update_env (f : world → world) : M unit :=
  λ st, (Ret tt, {| self := self st; env := f (env st) |}).

Definition print (m : message) : M unit := update_env (log_console m).

(** [try: body / except <catches> as e: handler e] *)
Definition try_except {A} (body : M A) (catches : exn → bool) (handler : exn → M A) : M A :=
  λ st,
    match body st with
    | (Raise e, st') => if catches e then handler e st' else (Raise e, st')
    | r => r
    end.

(** [try: body / except <catches> as e: handler e / else: orelse] *)
Definition try_except_else {A B} (body : M A) (catches : exn → bool)
    (handler : exn → M B) (orelse : M B) : M B :=
  λ st,
    match body st with
    | (Ret _, st') => orelse st'
    | (Raise e, st') => if catches e then handler e st' else (Raise e, st')
    | (Blocked, st') => (Blocked, st')
    end.

(** *** Socket calls *)

Definition none_has_no (attr : string) : exn :=
  AttributeError ("'NoneType' object has no attribute '" +:+ attr +:+ "'").

(** [socket.socket(...)], [setsockopt(TCP_NODELAY, 0)] and
    [connect((host, port))]: a fresh socket object, connected or not.
    Creating the socket and reading its local address back
    ([getsockname], for the message printed next) are taken to succeed. *)
Definition socket_connect (host : pystr) (port : Z) (via_proxy : bool) : M socket :=
  λ st,
    let w := env st in
    let sock := {| fileno := length (io_trace w) |} in
    let res := connect_outcome w (length (io_trace w)) in
    let st' := {| self := self st; env := log_io (IoConnect sock host port via_proxy res) w |} in
    match res with
    | None => (Ret sock, st')
    | Some e => (Raise e, st')
    end.

(** [using_socket.send(bytes_data)]; a send that returns is taken to have
    passed all of [bytes_data] on (the code does not look at the count that
    [send] returns). *)
Definition socket_send (using_socket : option socket) (bytes_data : bytes) : M unit :=
  match using_socket with
  | None => raise (none_has_no "send")
  | Some sock =>
      λ st,
        let w := env st in
        let res := send_outcome w (length (io_trace w)) in
        let st' := {| self := self st; env := log_io (IoSend sock bytes_data res) w |} in
        match res with
        | None => (Ret tt, st')
        | Some e => (Raise e, st')
        end
  end.

(** [using_socket.settimeout(timeout)] *)
Definition socket_settimeout (using_socket : option socket) (timeout : pyval) : M unit :=
  match using_socket with
  | None => raise (none_has_no "settimeout")
  | Some sock =>
      λ st,
        let w := env st in
        let res := settimeout_outcome w timeout in
        let st' := {| self := self st; env := log_io (IoSetTimeout sock timeout res) w |} in
        match res with
        | None => (Ret tt, st')
        | Some e => (Raise e, st')
        end
  end.

(** [self.raw_socket.close()]; closing a socket object is taken to
    succeed. *)
Definition socket_close (s : option socket) : M unit :=
  match s with
  | None => raise (none_has_no "close")
  | Some sock => update_env (log_io (IoClose sock))
  end.

(** [datetime.datetime.now()]: a logical clock, the number of socket calls
    made so far. *)
Definition now : M nat := λ st, (Ret (length (io_trace (env st))), st).

(** ** The methods of [H2Connection] *)

Section Methods.
Context `{Collaborators}.

(** [_create_socks_socket]: the SOCKS5 variant of the connect. *)
Definition _create_socks_socket : M unit :=
  self ← get_self;
  sock ← socket_connect (hostname self) (port_number self) true;
  update_self (set_raw_socket (Some sock));;
  print (MsgConnected true (hostname self) (port_number self)).

Definition _create_raw_socket : M unit :=
  self ← get_self;
  if truthy (proxy_hostname self) then _create_socks_socket
  else
    raw_socket ← socket_connect (hostname self) (port_number self) false;
    update_self (set_raw_socket (Some raw_socket));;
    print (MsgConnected false (hostname self) (port_number self)).

Definition get_using_socket : M (option socket) :=
  self ← get_self; mret (raw_socket self).

(** [send_bytes]: the time of the call when the socket took the bytes,
    [None] when the send failed and the failure was printed. *)
Definition send_bytes (bytes_data : bytes) : M (option nat) :=
  using_socket ← get_using_socket;
  try_except
    (sending_request_time ← now;
     socket_send using_socket bytes_data;;
     mret (Some sending_request_time))
    is_Exception
    (λ e, print (MsgSendError e);; mret None).

Definition _send_h2_connection_preface : M unit :=
  send_bytes H2_PREFACE;;
  print MsgPrefaceSent.

Definition send_frames (frames : H2Seq) : M unit :=
  _ ← get_using_socket;
  send_bytes (raw_seq frames);;
  mret tt.

(** The [while True] loop of [read_response_from_socket], by recursion on
    what the socket will deliver. *)
Fixpoint recv_loop (using_socket : socket) (evs : list recv_event)
    (response : bytes) (st : state) : outcome bytes * state :=
  match evs with
  | [] => (Blocked, st)
  | ev :: evs' =>
      let st' := {| self := self st;
                    env := log_io (IoRecv using_socket ev) (set_inbound evs' (env st)) |} in
      match ev with
      | RecvRaises e =>
          if is_socket_timeout e then (Ret response, st') else (Raise e, st')
      | Received data =>
          match data with
          | [] => (Ret response, st')
          | _ :: _ => recv_loop using_socket evs' (response ++ data) st'
          end
      end
  end.

Definition socket_recv_all (using_socket : option socket) : M bytes :=
  match using_socket with
  | None => raise (none_has_no "recv")
  | Some sock => λ st, recv_loop sock (inbound (env st)) [] st
  end.

Definition read_response_from_socket (_timeout : pyval) : M bytes :=
  self ← get_self;
  let timeout := match _timeout with PyNone => read_timeout self | _ => _timeout end in
  using_socket ← get_using_socket;
  timeout_set ← try_except
    (socket_settimeout using_socket timeout;; mret true)
    is_Exception
    (λ _, mret false);
  if timeout_set : bool then socket_recv_all using_socket else mret [].

(** A call that is given the world but not the connection object. *)
Definition in_world {A} (f : world → outcome A * world) : M A :=
  λ st, let '(r, w) := f (env st) in (r, {| self := self st; env := w |}).

Definition old_parse_frames_bytes (frame_bytes : bytes) (is_verbose : bool) : M unit :=
  using_socket ← get_using_socket;
  in_world (parse_response_frames_bytes frame_bytes using_socket is_verbose).

Definition is_keyboard_interrupt (e : exn) : bool :=
  match e with KeyboardInterrupt => true | _ => false end.

(** The [while not self.is_connection_closed] loop of the listener, followed
    for at most [rounds] turns; a loop that is still turning after that has
    not returned. *)
Fixpoint response_frame_parsing_loop (rounds : nat) (_timeout : pyval) : M unit :=
  self ← get_self;
  if is_connection_closed self then mret tt
  else
    match rounds with
    | O => blocked
    | S rounds' =>
        resp ← read_response_from_socket _timeout;
        (match resp with
         | [] => mret tt
         | _ :: _ => old_parse_frames_bytes resp false
         end);;
        response_frame_parsing_loop rounds' _timeout
    end.

(** [__thread_response_frame_parsing], run in the caller's thread. *)
Definition __thread_response_frame_parsing (rounds : nat) (_timeout : pyval) : M unit :=
  try_except (response_frame_parsing_loop rounds _timeout)
    is_keyboard_interrupt
    (λ _, raise (SystemExit 0)).

Definition send_ping_frame (ping_data : pystr) : M unit :=
  let ping_frame := create_ping_frame ping_data in
  send_bytes (raw ping_frame);;
  mret tt.

Definition close_connection : M unit :=
  let go_away_frame := create_go_away_frame 0 in
  send_bytes (raw go_away_frame);;
  self ← get_self;
  socket_close (raw_socket self);;
  update_self (set_raw_socket None);;
  update_self (set_is_connection_closed true).

(** The [for s in self.DEFAULT_SETTINGS.keys()] loop. *)
Fixpoint settings_loop (d : dict) (keys : list string)
    (settings_list : list H2Setting) : outcome (list H2Setting) :=
  match keys with
  | [] => Ret settings_list
  | s :: keys' =>
      match dict_get d s with
      | None => Raise (KeyError s)
      | Some e =>
          match entry_value e with
          | None => settings_loop d keys' settings_list
          | Some v =>
              let temp_s := {| setting_id := entry_id e; setting_value := v |} in
              settings_loop d keys' (settings_list ++ [temp_s])
          end
      end
  end.

Definition _send_client_initial_settings_frame : M unit :=
  self ← get_self;
  settings_list ← lift (settings_loop (DEFAULT_SETTINGS self) (dict_keys (DEFAULT_SETTINGS self)) []);
  let client_initial_settings_frame := create_settings_frame settings_list in
  send_bytes (raw client_initial_settings_frame);;
  print MsgSettingsSent.

Definition setup_connection : M unit :=
  try_except_else
    (_create_raw_socket;;
     _send_h2_connection_preface;;
     _send_client_initial_settings_frame)
    is_Exception
    (λ e, print (MsgSetupError e);; raise (SystemExit 1))
    (update_self (set_is_connection_closed false)).

(** [range(start, stop, step)] for a positive step. *)
Definition py_range (start stop step : Z) : list Z :=
  (λ i : nat, start + step * Z.of_nat i) <$>
    seq 0 (Z.to_nat ((stop - start + step - 1) `div` step)).

Definition positive_integer_msg : string := "number_of_streams must be a positive integer".
Definition stream_id_range_msg : string :=
  "There's a problem with the stream_id range. Please check the number_of_streams value.".

Definition generate_stream_ids (number_of_streams : pyval) : M (list Z) :=
  if negb (isinstance_int number_of_streams) || (default 0 (as_int number_of_streams) <=? 0)
  then
    print (MsgBadStreamCount number_of_streams);;
    raise (ValueError positive_integer_msg)
  else
    let n := default 0 (as_int number_of_streams) in
    self ← get_self;
    (if last_used_stream_id self `mod` 2 =? 0
     then update_self (set_last_used_stream_id (last_used_stream_id self + 1))
     else mret tt);;
    self ← get_self;
    let start_stream_id := last_used_stream_id self + 2 in
    let end_stream_id := n * 2 + start_stream_id in
    if end_stream_id <=? start_stream_id
    then raise (ValueError stream_id_range_msg)
    else
      let stream_ids_list := py_range start_stream_id end_stream_id 2 in
      match last stream_ids_list with
      | None => raise (IndexError "list index out of range")
      | Some l =>
          update_self (set_last_used_stream_id l);;
          mret stream_ids_list
      end.

(** [if body: body = bytes(body, 'utf-8')] *)
Definition encode_body (body : option pystr) : outcome body_arg :=
  match body with
  | None => Ret BodyNone
  | Some s => if truthy body then b ← utf8_encode s; Ret (BodyBytes b) else Ret (BodyStr s)
  end.

Definition index_error : exn := IndexError "list index out of range".

(** [frames[-1].data]: the attribute of the last frame. *)
Definition last_frame_data (frames : H2Seq) : outcome bytes :=
  match last frames with
  | None => Raise index_error
  | Some f =>
      match frame_data f with
      | None => Raise (AttributeError "data")
      | Some d => Ret d
      end
  end.

(** [frames[-1].data = d]: the last frame, updated in place. *)
Definition set_last_frame_data (d : bytes) (frames : H2Seq) : outcome H2Seq :=
  match last frames with
  | None => Raise index_error
  | Some f =>
      match frame_data f with
      | None => Raise (AttributeError "data")
      | Some _ => Ret (<[(length frames - 1)%nat := set_payload (H2DataFrame d) f]> frames)
      end
  end.

(** [frames[-1].flags.remove('ES')] *)
Definition remove_last_frame_flag (fl : string) (frames : H2Seq) : outcome H2Seq :=
  match last frames with
  | None => Raise index_error
  | Some f =>
      if decide (fl ∈ flags f)
      then Ret (<[(length frames - 1)%nat := set_flags (flags f ∖ {[fl]}) f]> frames)
      else Raise (KeyError fl)
  end.

Definition create_single_packet_http2_request_frames
    (authority scheme path headers_string : pystr) (stream_id : Z)
    (body : option pystr) (check_headers_lowercase : bool) (method : pystr)
    : outcome (H2Seq * H2Frame) :=
  body ← encode_body body;
  let headers_string :=
    if check_headers_lowercase then make_header_names_small headers_string
    else headers_string in
  request_frames ← create_headers_frame method authority scheme path headers_string stream_id body;
  match body with
  | BodyNone =>
      request_frames ← remove_last_frame_flag "ES" request_frames;
      let new_data_frame :=
        {| flags := {["ES"%string]}; stream_id := stream_id; payload := H2DataFrame [] |} in
      Ret (request_frames, new_data_frame)
  | _ =>
      data ← last_frame_data request_frames;
      let last_byte := last_slice data in
      data ← last_frame_data request_frames;
      request_frames ← set_last_frame_data (but_last_slice data) request_frames;
      request_frames ← remove_last_frame_flag "ES" request_frames;
      let new_data_frame :=
        {| flags := {["ES"%string]}; stream_id := stream_id; payload := H2DataFrame last_byte |} in
      Ret (request_frames, new_data_frame)
  end.

Definition create_simple_http2_request
    (method authority scheme path headers_string : pystr) (stream_id : Z)
    (body : option pystr) (check_headers_lowercase : bool) : outcome H2Seq :=
  body ← encode_body body;
  let headers_string :=
    if check_headers_lowercase then make_header_names_small headers_string
    else headers_string in
  create_headers_frame method authority scheme path headers_string stream_id body.

(** [send_simple_http2_request]: [body_bytes] is bound only when [body] is
    true. *)
Definition send_simple_http2_request
    (method authority scheme path headers_string : pystr) (stream_id : Z)
    (body : option pystr) (check_headers_lowercase : bool) : M unit :=
  body_bytes ← lift (if truthy body
                     then b ← utf8_encode (default [] body); Ret (Some b)
                     else Ret None);
  let headers_string' :=
    if check_headers_lowercase then make_header_names_small headers_string
    else headers_string in
  match body_bytes with
  | None => raise (UnboundLocalError "body_bytes")
  | Some b =>
      request_frames ← lift (create_headers_frame method authority scheme path
                               headers_string' stream_id (BodyBytes b));
      send_bytes (raw_seq request_frames);;
      print (MsgRequestInfo stream_id method authority scheme path headers_string' body)
  end.

End Methods.

(** ** The operations of a connection, as a caller issues them

    Every method of the class, run in the caller's thread; a caller may
    catch what a call raises and go on.  The listener is among them as the
    method it runs, [__thread_response_frame_parsing];
    [start_thread_response_parsing], which hands that method to a new
    thread, is not. *)

Record request := {
  req_method : pystr;
  req_authority : pystr;
  req_scheme : pystr;
  req_path : pystr;
  req_headers_string : pystr;
  req_stream_id : Z;
  req_body : option pystr;
  req_check_headers_lowercase : bool
}.

Inductive op :=
| SetupConnection
| CloseConnection
| CreateSocksSocket
| CreateRawSocket
| SendH2ConnectionPreface
| SendClientInitialSettingsFrame
| GetUsingSocket
| SendBytes (bytes_data : bytes)
| SendFrames (frames : H2Seq)
| ReadResponseFromSocket (_timeout : pyval)
| OldParseFramesBytes (frame_bytes : bytes) (is_verbose : bool)
| SendPingFrame (ping_data : pystr)
| GenerateStreamIds (number_of_streams : pyval)
| CreateSinglePacketHttp2RequestFrames (r : request)
| CreateSimpleHttp2Request (r : request)
| SendSimpleHttp2Request (r : request)
| ThreadResponseFrameParsing (rounds : nat) (_timeout : pyval).

Inductive value :=
| VNone
| VTime (t : option nat)
| VSocket (s : option socket)
| VBytes (b : bytes)
| VIds (ids : list Z)
| VFrames (fs : H2Seq)
| VSplit (bulk : H2Seq) (trigger : H2Frame).

Section Operations.
Context `{Collaborators}.

Definition call (o : op) : M value :=
  match o with
  | SetupConnection => setup_connection;; mret VNone
  | CloseConnection => close_connection;; mret VNone
  | CreateSocksSocket => _create_socks_socket;; mret VNone
  | CreateRawSocket => _create_raw_socket;; mret VNone
  | SendH2ConnectionPreface => _send_h2_connection_preface;; mret VNone
  | SendClientInitialSettingsFrame => _send_client_initial_settings_frame;; mret VNone
  | GetUsingSocket => s ← get_using_socket; mret (VSocket s)
  | SendBytes bytes_data => t ← send_bytes bytes_data; mret (VTime t)
  | SendFrames frames => send_frames frames;; mret VNone
  | ReadResponseFromSocket _timeout => b ← read_response_from_socket _timeout; mret (VBytes b)
  | OldParseFramesBytes frame_bytes is_verbose =>
      old_parse_frames_bytes frame_bytes is_verbose;; mret VNone
  | SendPingFrame ping_data => send_ping_frame ping_data;; mret VNone
  | GenerateStreamIds number_of_streams =>
      ids ← generate_stream_ids number_of_streams; mret (VIds ids)
  | CreateSinglePacketHttp2RequestFrames r =>
      p ← lift (create_single_packet_http2_request_frames
                  (req_authority r) (req_scheme r) (req_path r) (req_headers_string r)
                  (req_stream_id r) (req_body r) (req_check_headers_lowercase r)
                  (req_method r));
      mret (VSplit p.1 p.2)
  | CreateSimpleHttp2Request r =>
      fs ← lift (create_simple_http2_request
                   (req_method r) (req_authority r) (req_scheme r) (req_path r)
                   (req_headers_string r) (req_stream_id r) (req_body r)
                   (req_check_headers_lowercase r));
      mret (VFrames fs)
  | SendSimpleHttp2Request r =>
      send_simple_http2_request
        (req_method r) (req_authority r) (req_scheme r) (req_path r)
        (req_headers_string r) (req_stream_id r) (req_body r)
        (req_check_headers_lowercase r);;
      mret VNone
  | ThreadResponseFrameParsing rounds _timeout =>
      __thread_response_frame_parsing rounds _timeout;; mret VNone
  end.

(** A session: the calls in order, each with what it did.  A call that
    never returns ends the session. *)
Fixpoint run (ops : list op) (st : state) : list (outcome value) * state :=
  match ops with
  | [] => ([], st)
  | o :: ops' =>
      match call o st with
      | (Blocked, st') => ([Blocked], st')
      | (r, st') => let '(rs, st'') := run ops' st' in (r :: rs, st'')
      end
  end.

(** The stream identifiers a session handed out, in order. *)
Definition ids_returned (rs : list (outcome value)) : list Z :=
  concat (omap (λ r, match r with Ret (VIds ids) => Some ids | _ => None end) rs).

End Operations.

(** ** Shapes of a built request

    What the frame builder is expected to hand back (a HEADERS frame, then
    the DATA frames of the body, the end-of-stream flag on the last frame
    only). *)

Definition end_stream_on_last_only (fs : H2Seq) : Prop :=
  ∃ init f, fs = init ++ [f] ∧ "ES" ∈ flags f ∧ Forall (λ g, "ES" ∉ flags g) init.

Definition ends_with_data (fs : H2Seq) : Prop :=
  ∃ f d, last fs = Some f ∧ frame_data f = Some d ∧ d ≠ [].

Definition on_stream (sid : Z) (fs : H2Seq) : Prop :=
  Forall (λ f, stream_id f = sid) fs.

Definition strictly_increasing (l : list Z) : Prop :=
  ∀ (i j : nat) x y, l !! i = Some x → l !! j = Some y → (i < j)%nat → x < y.

(** The entries of the settings table that have a value, as settings. *)
Definition present_setting (e : setting_entry) : option H2Setting :=
  v ← entry_value e; Some {| setting_id := entry_id e; setting_value := v |}.

(** ** A reference implementation of the collaborators *)

Module SpecModel.

Definition str (s : string) : pystr :=
  Ascii.N_of_ascii <$> String.list_ascii_of_string s.

(** Big-endian, [n] bytes. *)
Fixpoint be_bytes (n : nat) (z : Z) : bytes :=
  match n with
  | O => []
  | S n' => be_bytes n' (z `div` 256) ++ [byte_of_N (Z.to_N (z `mod` 256))]
  end.

Definition latin1 (s : pystr) : bytes := byte_of_N <$> s.

Definition payload_bytes (p : frame_payload) : bytes :=
  match p with
  | H2HeadersFrame hdrs | H2ContinuationFrame hdrs =>
      concat ((λ h : pystr * pystr, latin1 h.1 ++ [x3a] ++ latin1 h.2 ++ [x0a]) <$> hdrs)
  | H2DataFrame data => data
  | H2SettingsFrame settings =>
      concat ((λ s, be_bytes 2 (setting_id s) ++ be_bytes 4 (setting_value s)) <$> settings)
  | H2PingFrame opaque => opaque
  | H2GoAwayFrame last_stream_id error => be_bytes 4 last_stream_id ++ be_bytes 4 error
  end.

Definition type_code (p : frame_payload) : Z :=
  match p with
  | H2DataFrame _ => 0
  | H2HeadersFrame _ => 1
  | H2SettingsFrame _ => 4
  | H2PingFrame _ => 6
  | H2GoAwayFrame _ _ => 7
  | H2ContinuationFrame _ => 9
  end.

Definition flags_code (fl : gset string) : Z :=
  (if decide ("ES" ∈ fl) then 1 else 0) + (if decide ("EH" ∈ fl) then 4 else 0).

(** Modelled from the spec: the frame codec's serialisation ("serialize
    them to bytes"), as the 9-byte frame header of HTTP/2 followed by the
    payload; the header block is left uncompressed. *)
Definition model_raw (f : H2Frame) : bytes :=
  let body := payload_bytes (payload f) in
  be_bytes 3 (Z.of_nat (length body)) ++ be_bytes 1 (type_code (payload f))
    ++ be_bytes 1 (flags_code (flags f)) ++ be_bytes 4 (stream_id f) ++ body.

(** Header lines [name: value], one per line. *)
Fixpoint split_on (sep : N) (s : pystr) : list pystr :=
  match s with
  | [] => [[]]
  | c :: s' =>
      match split_on sep s' with
      | [] => [[c]]
      | l :: ls => if N.eqb c sep then [] :: l :: ls else (c :: l) :: ls
      end
  end.

Definition header_of_line (l : pystr) : pystr * pystr :=
  match split_on 58 l with
  | name :: rest => (name, concat rest)
  | [] => ([], [])
  end.

Definition lower (c : N) : N :=
  if ((65 <=? c) && (c <=? 90))%N then (c + 32)%N else c.

(** Modelled from the spec: [utils.make_header_names_small] ("all header
    names lowercased before frame construction"): the name of every header
    line, up to its first colon, in lower case. *)
Fixpoint model_make_header_names_small_from (in_name : bool) (s : pystr) : pystr :=
  match s with
  | [] => []
  | c :: s' =>
      if N.eqb c 10 then c :: model_make_header_names_small_from true s'
      else if N.eqb c 58 then c :: model_make_header_names_small_from false s'
      else (if in_name then lower c else c) :: model_make_header_names_small_from in_name s'
  end.

(** Modelled from the spec: [h2_frames.create_headers_frame]
    ("build_headers_frame(method, authority, scheme, path, header_block,
    stream_id, body?) -> FrameSequence"; the last frame is "the final DATA
    frame if a body is present, otherwise the HEADERS frame itself", and it
    carries the end-of-stream marker). *)
Definition model_create_headers_frame
    (method authority scheme path headers_string : pystr) (stream_id : Z)
    (body : body_arg) : outcome H2Seq :=
  let hdrs :=
    [(str ":method", method); (str ":authority", authority);
     (str ":scheme", scheme); (str ":path", path)]
    ++ (header_of_line <$> filter (λ l, l ≠ []) (split_on 10 headers_string)) in
  match body with
  | BodyBytes (x :: b) =>
      Ret [ {| flags := {["EH"%string]}; stream_id := stream_id; payload := H2HeadersFrame hdrs |};
            {| flags := {["ES"%string]}; stream_id := stream_id; payload := H2DataFrame (x :: b) |} ]
  | _ =>
      Ret [ {| flags := {["EH"%string; "ES"%string]}; stream_id := stream_id;
               payload := H2HeadersFrame hdrs |} ]
  end.

(** Modelled from the spec: the remaining builders of [h2_frames]
    ("build_settings_frame(entries)", "build_ping_frame(payload)",
    "build_goaway_frame(error_code)", "parse_frames(bytes)"), on stream 0;
    the parser answers nothing on the socket. *)
Definition model : Collaborators := {|
  raw := model_raw;
  raw_seq := λ fs, concat (model_raw <$> fs);
  create_go_away_frame := λ err_code,
    {| flags := ∅; stream_id := 0; payload := H2GoAwayFrame 0 err_code |};
  create_ping_frame := λ ping_data,
    {| flags := ∅; stream_id := 0; payload := H2PingFrame (latin1 ping_data) |};
  create_settings_frame := λ settings,
    {| flags := ∅; stream_id := 0; payload := H2SettingsFrame settings |};
  create_headers_frame := model_create_headers_frame;
  parse_response_frames_bytes := λ _ _ _ w, (Ret tt, w);
  make_header_names_small := model_make_header_names_small_from true
|}.

(** A network on which every call succeeds, and one on which the host
    accepts the connection but every send fails. *)
Definition healthy (inbound : list recv_event) : world :=
  {| connect_outcome := λ _, None; send_outcome := λ _, None;
     settimeout_outcome := λ _, None; inbound := inbound;
     io_trace := []; console := [] |}.

Definition broken_pipe : world :=
  {| connect_outcome := λ _, None; send_outcome := λ _, Some (OSError "Broken pipe");
     settimeout_outcome := λ _, None; inbound := [];
     io_trace := []; console := [] |}.

Definition unreachable : world :=
  {| connect_outcome := λ _, Some (OSError "Connection refused"); send_outcome := λ _, None;
     settimeout_outcome := λ _, None; inbound := [];
     io_trace := []; console := [] |}.

Definition fresh (w : world) : state :=
  {| self := init (str "example.com") 80 (PyInt 3) None None; env := w |}.

(** The frames built for the two example requests on stream 3. *)
Definition example_hdrs (method : string) : list (pystr * pystr) :=
  [(str ":method", str method); (str ":authority", str "example.com");
   (str ":scheme", str "https"); (str ":path", str "/");
   (str "user-agent", str " h2")].

Definition example_post : H2Seq :=
  [ {| flags := {["EH"%string]}; stream_id := 3;
       payload := H2HeadersFrame (example_hdrs "POST") |};
    {| flags := {["ES"%string]}; stream_id := 3;
       payload := H2DataFrame [x61; x62; x63] |} ].

Definition example_get : H2Seq :=
  [ {| flags := {["EH"%string; "ES"%string]}; stream_id := 3;
       payload := H2HeadersFrame (example_hdrs "GET") |} ].

End SpecModel.

(** ** Vocabulary of the properties *)

(** A method leaves an attribute (or any function [f] of the attributes)
    of the connection object as it found it, however it ends. *)
Definition keeps {A B} (f : H2Connection → B) (m : M A) : Prop :=
  ∀ st, f (self (m st).2) = f (self st).

(** [f] does not look at the socket attribute. *)
Definition blind_to_socket {B} (f : H2Connection → B) : Prop :=
  ∀ s c, f (set_raw_socket s c) = f c.

(** The local variables of [generate_stream_ids], from the value of
    [last_used_stream_id] at the call and the count [n]. *)
Definition odd_last_used (l : Z) : Z := if l `mod` 2 =? 0 then l + 1 else l.
Definition start_stream_id (l : Z) : Z := odd_last_used l + 2.
Definition end_stream_id (l n : Z) : Z := n * 2 + start_stream_id l.

(** The network's answer to the next socket call. *)
Definition next_send_outcome (w : world) : option exn :=
  send_outcome w (length (io_trace w)).

Definition next_connect_outcome (w : world) : option exn :=
  connect_outcome w (length (io_trace w)).

(** An answer that [except Exception] deals with: success, or an
    exception that is not a [BaseException]. *)
Definition handled (res : option exn) : Prop :=
  ∀ e, res = Some e → is_Exception e = true.

(** What ends the drain loop: an empty read or a timeout. *)
Definition ends_drain (ev : recv_event) : Prop :=
  ev = Received [] ∨ ev = RecvRaises SocketTimeout.

(** The call at position [k] of a session was [o] and it returned. *)
Definition returned_at (o : op) (ops : list op) (rs : list (outcome value)) (k : nat) : Prop :=
  ops !! k = Some o ∧ ∃ v, rs !! k = Some (Ret v).

Section Readings.
Context `{Collaborators}.

(** "A second [close] is a no-op that reports already closed": after a
    [close_connection] that returned, a second one returns too and makes no
    socket call. *)
Definition second_close_is_a_reported_no_op (st : state) : Prop :=
  (close_connection st).1 = Ret tt →
  (close_connection (close_connection st).2).1 = Ret tt
  ∧ io_trace (env (close_connection (close_connection st).2).2)
    = io_trace (env (close_connection st).2).

(** "The closed flag is false once teardown runs": after a
    [close_connection] that returned, [is_connection_closed] is [False]. *)
Definition closed_flag_false_after_teardown (st : state) : Prop :=
  (close_connection st).1 = Ret tt →
  is_connection_closed (self (close_connection st).2) = false.

End Readings.

(** ** The first version of the class

    [h2spacex/h2_connection.py] at the top of the repository is the earlier
    [H2Connection].  Its attributes are among those of the later class,
    whose record it shares; the methods below are the ones that print
    nothing. *)

Module Legacy.
Section Methods.
Context `{Collaborators}.

Definition get_using_socket : M (option socket) :=
  self ← get_self; mret (raw_socket self).

(** No [try] here: what [send] raises reaches the caller. *)
Definition send_bytes (bytes_data : bytes) : M unit :=
  using_socket ← get_using_socket;
  socket_send using_socket bytes_data.

Definition send_frames (frames : H2Seq) : M unit :=
  using_socket ← get_using_socket;
  socket_send using_socket (raw_seq frames).

Definition read_response_from_socket (_timeout : pyval) : M bytes :=
  self ← get_self;
  let timeout := match _timeout with PyNone => read_timeout self | _ => _timeout end in
  using_socket ← get_using_socket;
  socket_settimeout using_socket timeout;;
  socket_recv_all using_socket.

Definition parse_frames_bytes (frame_bytes : bytes) (is_verbose : bool) : M unit :=
  using_socket ← get_using_socket;
  in_world (parse_response_frames_bytes frame_bytes using_socket is_verbose).

Definition send_ping_frame (ping_data : pystr) : M unit :=
  let ping_frame := create_ping_frame ping_data in
  send_bytes (raw ping_frame).

(** The splitter before it had a branch for requests without a body. *)
Definition create_single_packet_http2_post_request_frames
    (authority scheme path headers_string : pystr) (stream_id : Z)
    (body : option pystr) (check_headers_lowercase : bool) (method : pystr)
    : outcome (H2Seq * H2Frame) :=
  body ← encode_body body;
  let headers_string :=
    if check_headers_lowercase then make_header_names_small headers_string
    else headers_string in
  post_request_frames ←
    create_headers_frame method authority scheme path headers_string stream_id body;
  data ← last_frame_data post_request_frames;
  let last_byte := last_slice data in
  data ← last_frame_data post_request_frames;
  post_request_frames ← set_last_frame_data (but_last_slice data) post_request_frames;
  post_request_frames ← remove_last_frame_flag "ES" post_request_frames;
  let new_data_frame :=
    {| flags := {["ES"%string]}; stream_id := stream_id; payload := H2DataFrame last_byte |} in
  Ret (post_request_frames, new_data_frame).

(** The header names are made small a second time whatever the flag says,
    and the frames are built with [body=None]. *)
Definition create_single_packet_http2_get_request_frames
    (authority scheme path headers_string : pystr) (stream_id : Z)
    (check_headers_lowercase : bool) (body : option pystr) (method : pystr)
    : outcome H2Seq :=
  _ ← encode_body body;
  let headers_string :=
    if check_headers_lowercase then make_header_names_small headers_string
    else headers_string in
  let headers_string := make_header_names_small headers_string in
  create_headers_frame method authority scheme path headers_string stream_id BodyNone.

End Methods.
End Legacy.

(** ** More vocabulary *)

Section MoreReadings.
Context `{Collaborators}.

(** The byte string a sending method hands to [send_bytes]. *)
Definition sent_bytes (o : op) : option bytes :=
  match o with
  | SendBytes bytes_data => Some bytes_data
  | SendFrames frames => Some (raw_seq frames)
  | SendPingFrame ping_data => Some (raw (create_ping_frame ping_data))
  | _ => None
  end.

End MoreReadings.

(** A lone surrogate, which UTF-8 cannot encode. *)
Definition is_surrogate (c : N) : Prop := (0xD800 ≤ c ∧ c ≤ 0xDFFF)%N.

(** The timeout [read_response_from_socket] sets on the socket. *)
Definition timeout_in_force (_timeout : pyval) (c : H2Connection) : pyval :=
  match _timeout with PyNone => read_timeout c | _ => _timeout end.

(** A frame builder, for an example, that spreads the header block over
    a HEADERS and a CONTINUATION frame and sets the end-of-stream flag on
    the HEADERS frame, the first one. *)
Definition continued_builder : Collaborators := {|
  raw := raw (Collaborators:=SpecModel.model);
  raw_seq := raw_seq (Collaborators:=SpecModel.model);
  create_go_away_frame := create_go_away_frame (Collaborators:=SpecModel.model);
  create_ping_frame := create_ping_frame (Collaborators:=SpecModel.model);
  create_settings_frame := create_settings_frame (Collaborators:=SpecModel.model);
  create_headers_frame := λ method authority scheme path headers_string stream_id _,
    Ret [ {| flags := {["ES"%string]}; stream_id := stream_id;
             payload := H2HeadersFrame
               [(SpecModel.str ":method", method); (SpecModel.str ":authority", authority);
                (SpecModel.str ":scheme", scheme); (SpecModel.str ":path", path)] |};
          {| flags := {["EH"%string]}; stream_id := stream_id;
             payload := H2ContinuationFrame
               (SpecModel.header_of_line
                  <$> filter (λ l, l ≠ []) (SpecModel.split_on 10 headers_string)) |} ];
  parse_response_frames_bytes :=
    parse_response_frames_bytes (Collaborators:=SpecModel.model);
  make_header_names_small := make_header_names_small (Collaborators:=SpecModel.model)
|}.

(** Python's [socket] module, on a socket on which nothing arrives: under
    a positive timeout [recv] raises [socket.timeout] when the time is up;
    under timeout 0 the socket is non-blocking and [recv] raises
    [BlockingIOError], an [OSError], at once; under no timeout ([None])
    [recv] never returns.  (A timeout that [settimeout] refuses is never
    read under.) *)
Definition blocking_io_error : exn :=
  OSError "[Errno 11] Resource temporarily unavailable".

Definition quiet_socket (timeout : pyval) : list recv_event :=
  match timeout with
  | PyInt z | PyFloat z _ =>
      if z =? 0 then [RecvRaises blocking_io_error]
      else if 0 <? z then [RecvRaises SocketTimeout]
      else []
  | PyBool b => if b then [RecvRaises SocketTimeout] else [RecvRaises blocking_io_error]
  | _ => []
  end.

(** "For every timeout value, a timeout is returned as no data, never
    surfaced as an error": on a socket on which nothing arrives,
    [read_response_from_socket] returns the empty buffer. *)
Definition quiet_read_returns_empty_buffer (_timeout : pyval) (st : state) : Prop :=
  inbound (env st) = quiet_socket (timeout_in_force _timeout (self st)) →
  (read_response_from_socket _timeout st).1 = Ret [].

(** * Properties *)

(** ** The monad *)

Section MonadFacts.
Context `{Collaborators}.

Lemma bind_Ret {A B} (m : M A) (k : A → M B) st a st' :
  m st = (Ret a, st') → (m ≫= k) st = k a st'.
Proof. intros E. unfold mbind, M_bind. by rewrite E. Qed.

Lemma bind_Raise {A B} (m : M A) (k : A → M B) st e st' :
  m st = (Raise e, st') → (m ≫= k) st = (Raise e, st').
Proof. intros E. unfold mbind, M_bind. by rewrite E. Qed.

Lemma keeps_mret {A B} (f : H2Connection → B) (a : A) : keeps f (mret a).
Proof. by intros st. Qed.

Lemma keeps_raise {A B} (f : H2Connection → B) e : keeps f (raise (A:=A) e).
Proof. by intros st. Qed.

Lemma keeps_lift {A B} (f : H2Connection → B) (r : outcome A) : keeps f (lift r).
Proof. by intros st. Qed.

Lemma keeps_blocked {A B} (f : H2Connection → B) : keeps f (blocked (A:=A)).
Proof. by intros st. Qed.

Lemma keeps_get_self {B} (f : H2Connection → B) : keeps f get_self.
Proof. by intros st. Qed.

Lemma keeps_now {B} (f : H2Connection → B) : keeps f now.
Proof. by intros st. Qed.

Lemma keeps_update_env {B} (f : H2Connection → B) g : keeps f (update_env g).
Proof. by intros st. Qed.

Lemma keeps_print {B} (f : H2Connection → B) m : keeps f (print m).
Proof. by intros st. Qed.

Lemma keeps_in_world {A B} (f : H2Connection → B) (g : world → outcome A * world) :
  keeps f (in_world g).
Proof. intros st. unfold in_world. by destruct (g (env st)). Qed.

Lemma keeps_update_self {B} (f : H2Connection → B) g :
  (∀ c, f (g c) = f c) → keeps f (update_self g).
Proof. intros Hg st. apply Hg. Qed.

Lemma keeps_bind {A B C} (f : H2Connection → C) (m : M A) (k : A → M B) :
  keeps f m → (∀ a, keeps f (k a)) → keeps f (m ≫= k).
Proof.
  intros Hm Hk st. specialize (Hm st). unfold mbind, M_bind.
  destruct (m st) as [[a|e|] st']; simpl in *; [|done..].
  by rewrite Hk.
Qed.

Lemma keeps_try_except {A B} (f : H2Connection → B) (body : M A) catches handler :
  keeps f body → (∀ e, keeps f (handler e)) → keeps f (try_except body catches handler).
Proof.
  intros Hb Hh st. specialize (Hb st). unfold try_except.
  destruct (body st) as [[a|e|] st']; simpl in *; [done| |done].
  destruct (catches e); [|done]. by rewrite Hh.
Qed.

Lemma keeps_try_except_else {A B C} (f : H2Connection → C) (body : M A) catches
    (handler : exn → M B) orelse :
  keeps f body → (∀ e, keeps f (handler e)) → keeps f orelse →
  keeps f (try_except_else body catches handler orelse).
Proof.
  intros Hb Hh Ho st. specialize (Hb st). unfold try_except_else.
  destruct (body st) as [[a|e|] st']; simpl in *; [by rewrite Ho| |done].
  destruct (catches e); [|done]. by rewrite Hh.
Qed.

Lemma keeps_socket_connect {B} (f : H2Connection → B) host port via :
  keeps f (socket_connect host port via).
Proof. intros st. unfold socket_connect. by destruct (connect_outcome _ _). Qed.

Lemma keeps_socket_send {B} (f : H2Connection → B) s d : keeps f (socket_send s d).
Proof. intros st. destruct s; [|done]. simpl. by destruct (send_outcome _ _). Qed.

Lemma keeps_socket_settimeout {B} (f : H2Connection → B) s t :
  keeps f (socket_settimeout s t).
Proof. intros st. destruct s; [|done]. simpl. by destruct (settimeout_outcome _ _). Qed.

Lemma keeps_socket_close {B} (f : H2Connection → B) s : keeps f (socket_close s).
Proof. intros st. by destruct s. Qed.

Lemma recv_loop_self sock evs response st :
  self (recv_loop sock evs response st).2 = self st.
Proof.
  revert response st. induction evs as [|ev evs IH]; intros response st; [done|].
  simpl. destruct ev as [[|x d]|e]; [done| |by destruct (is_socket_timeout e)].
  by rewrite IH.
Qed.

Lemma keeps_socket_recv_all {B} (f : H2Connection → B) s : keeps f (socket_recv_all s).
Proof. intros st. destruct s; [|done]. simpl. by rewrite recv_loop_self. Qed.

End MonadFacts.

Create HintDb keeps discriminated.
#[global] Hint Resolve keeps_mret keeps_raise keeps_lift keeps_blocked keeps_get_self keeps_now
  keeps_update_env keeps_print keeps_in_world keeps_socket_connect keeps_socket_send
  keeps_socket_settimeout keeps_socket_close keeps_socket_recv_all : keeps.

(** Splits a method into its statements and settles each one. *)
Ltac keeps_step :=
  first
    [ solve [eauto with keeps]
    | apply keeps_bind; [|intros ?]
    | apply keeps_try_except; [|intros ?]
    | apply keeps_try_except_else; [|intros ?|]
    | apply keeps_update_self; intros ?; done
    | match goal with |- keeps _ (if ?b then _ else _) => destruct b end
    | match goal with |- keeps _ (match ?x with _ => _ end) => destruct x end
    | progress cbv zeta ].

Ltac keeps_tac := repeat keeps_step.

(** ** What each method leaves alone *)

Section Frames.
Context `{Collaborators}.
Context {B : Type} (f : H2Connection → B).

Lemma keeps_get_using_socket : keeps f get_using_socket.
Proof. unfold get_using_socket. keeps_tac. Qed.

Lemma keeps_send_bytes bytes_data : keeps f (send_bytes bytes_data).
Proof. unfold send_bytes. pose proof keeps_get_using_socket. keeps_tac. Qed.

Lemma keeps_send_frames frames : keeps f (send_frames frames).
Proof.
  unfold send_frames.
  pose proof keeps_get_using_socket. pose proof keeps_send_bytes. keeps_tac.
Qed.

Lemma keeps_send_ping_frame ping_data : keeps f (send_ping_frame ping_data).
Proof. unfold send_ping_frame. pose proof keeps_send_bytes. keeps_tac. Qed.

Lemma keeps_send_h2_connection_preface : keeps f _send_h2_connection_preface.
Proof. unfold _send_h2_connection_preface. pose proof keeps_send_bytes. keeps_tac. Qed.

Lemma keeps_send_client_initial_settings_frame :
  keeps f _send_client_initial_settings_frame.
Proof.
  unfold _send_client_initial_settings_frame. pose proof keeps_send_bytes. keeps_tac.
Qed.

Lemma keeps_read_response_from_socket _timeout :
  keeps f (read_response_from_socket _timeout).
Proof.
  unfold read_response_from_socket. pose proof keeps_get_using_socket. keeps_tac.
Qed.

Lemma keeps_old_parse_frames_bytes frame_bytes is_verbose :
  keeps f (old_parse_frames_bytes frame_bytes is_verbose).
Proof. unfold old_parse_frames_bytes. pose proof keeps_get_using_socket. keeps_tac. Qed.

Lemma keeps_response_frame_parsing_loop rounds _timeout :
  keeps f (response_frame_parsing_loop rounds _timeout).
Proof.
  pose proof keeps_read_response_from_socket. pose proof keeps_old_parse_frames_bytes.
  induction rounds as [|rounds IH]; simpl; keeps_tac.
Qed.

Lemma keeps_thread_response_frame_parsing rounds _timeout :
  keeps f (__thread_response_frame_parsing rounds _timeout).
Proof.
  unfold __thread_response_frame_parsing.
  pose proof keeps_response_frame_parsing_loop. keeps_tac.
Qed.

Lemma keeps_send_simple_http2_request m a s p h i b c :
  keeps f (send_simple_http2_request m a s p h i b c).
Proof. unfold send_simple_http2_request. pose proof keeps_send_bytes. keeps_tac. Qed.

Lemma keeps_create_socks_socket : blind_to_socket f → keeps f _create_socks_socket.
Proof.
  intros Hf. unfold _create_socks_socket.
  repeat first [apply keeps_update_self; intros ?; apply Hf | keeps_step].
Qed.

Lemma keeps_create_raw_socket : blind_to_socket f → keeps f _create_raw_socket.
Proof.
  intros Hf. unfold _create_raw_socket. pose proof (keeps_create_socks_socket Hf).
  repeat first [apply keeps_update_self; intros ?; apply Hf | keeps_step].
Qed.

End Frames.

(** ** The stream identifier allocator *)

Section Allocator.
Context `{Collaborators}.

Lemma py_range_step2 (start n : Z) :
  0 ≤ n →
  py_range start (n * 2 + start) 2
  = (λ i : nat, start + 2 * Z.of_nat i) <$> seq 0 (Z.to_nat n).
Proof.
  intros Hn. unfold py_range. do 3 f_equal.
  replace (n * 2 + start - start + 2 - 1) with (1 + n * 2) by lia.
  by rewrite Z.div_add.
Qed.

Lemma odd_last_used_odd (l : Z) : Z.odd (odd_last_used l) = true.
Proof.
  unfold odd_last_used. destruct (Z.eqb_spec (l `mod` 2) 0) as [E|E].
  - rewrite Z.odd_add. rewrite Zmod_odd in E. by destruct (Z.odd l).
  - rewrite Zmod_odd in E. by destruct (Z.odd l).
Qed.

Lemma odd_last_used_ge (l : Z) : l ≤ odd_last_used l.
Proof. unfold odd_last_used. destruct (_ =? _); lia. Qed.

(** The identifiers of one allocation, by position. *)
Lemma stream_ids_lookup (start n : Z) (i : nat) x :
  ((λ i : nat, start + 2 * Z.of_nat i) <$> seq 0 (Z.to_nat n)) !! i = Some x →
  x = start + 2 * Z.of_nat i ∧ Z.of_nat i < n.
Proof.
  rewrite list_lookup_fmap. intros E.
  destruct (seq 0 (Z.to_nat n) !! i) as [k|] eqn:Ek; [|done].
  apply lookup_seq in Ek as [-> Hi]. simpl in E. split; [congruence|lia].
Qed.

Lemma stream_ids_last (start n : Z) :
  0 < n →
  last ((λ i : nat, start + 2 * Z.of_nat i) <$> seq 0 (Z.to_nat n))
  = Some (start + 2 * (n - 1)).
Proof.
  intros Hn. rewrite fmap_last.
  replace (Z.to_nat n) with (S (Z.to_nat (n - 1))) by lia.
  rewrite seq_S, last_snoc. simpl. f_equal. lia.
Qed.

(** An accepted call, in full: what it returns and the object it leaves. *)
Lemma generate_stream_ids_accepted (v : pyval) (n : Z) (st : state) :
  as_int v = Some n → 0 < n →
  generate_stream_ids v st
  = (Ret (py_range (start_stream_id (last_used_stream_id (self st)))
                   (end_stream_id (last_used_stream_id (self st)) n) 2),
     {| self := set_last_used_stream_id
                  (start_stream_id (last_used_stream_id (self st)) + 2 * (n - 1))
                  (self st);
        env := env st |}).
Proof.
  intros Hv Hn. unfold generate_stream_ids, isinstance_int. rewrite Hv. simpl.
  destruct (Z.leb_spec n 0) as [?|_]; [lia|].
  unfold end_stream_id, start_stream_id, odd_last_used.
  unfold mbind, M_bind, get_self; simpl.
  destruct (last_used_stream_id (self st) `mod` 2 =? 0); simpl;
    rewrite (proj2 (Z.leb_gt _ _)) by lia;
    rewrite py_range_step2 by lia; rewrite stream_ids_last by done; reflexivity.
Qed.

(** A refused call, in full. *)
Lemma generate_stream_ids_refused (v : pyval) (st : state) :
  (as_int v = None ∨ ∃ n, as_int v = Some n ∧ n ≤ 0) →
  generate_stream_ids v st
  = (Raise (ValueError positive_integer_msg),
     {| self := self st; env := log_console (MsgBadStreamCount v) (env st) |}).
Proof.
  intros Hv. unfold generate_stream_ids, isinstance_int.
  destruct Hv as [->|(n & -> & Hn)]; simpl; [done|].
  destruct (Z.leb_spec n 0) as [_|?]; [done|lia].
Qed.

Lemma generate_stream_ids_cases (v : pyval) :
  (as_int v = None ∨ ∃ n, as_int v = Some n ∧ n ≤ 0) ∨ (∃ n, as_int v = Some n ∧ 0 < n).
Proof.
  destruct (as_int v) as [n|]; [|by left; left].
  destruct (Z.le_gt_cases n 0); [left; right|right]; eauto.
Qed.

(** One call never lowers [last_used_stream_id], and what it hands out lies
    above the old value and not above the new one. *)
Lemma call_last_used (o : op) (st : state) :
  last_used_stream_id (self st) ≤ last_used_stream_id (self (call o st).2)
  ∧ ∀ ids, (call o st).1 = Ret (VIds ids) →
      Forall (λ j, last_used_stream_id (self st) < j
                   ∧ j ≤ last_used_stream_id (self (call o st).2)) ids.
Proof.
  assert (Hkeep : ∀ (m : M unit),
    keeps last_used_stream_id m →
    last_used_stream_id (self st) ≤ last_used_stream_id (self ((m;; mret VNone) st).2)
    ∧ ∀ ids, ((m;; mret VNone) st).1 = Ret (VIds ids) →
        Forall (λ j, last_used_stream_id (self st) < j
                     ∧ j ≤ last_used_stream_id (self ((m;; mret VNone) st).2)) ids).
  { intros m Hm. specialize (Hm st). unfold mbind, M_bind.
    destruct (m st) as [[[]|e|] st']; simpl in *; (split; [lia|done]). }
  destruct o; simpl; try (apply Hkeep).
  - unfold setup_connection.
    pose proof (keeps_create_raw_socket last_used_stream_id).
    pose proof (keeps_send_h2_connection_preface last_used_stream_id).
    pose proof (keeps_send_client_initial_settings_frame last_used_stream_id).
    keeps_tac.
  - unfold close_connection. pose proof (keeps_send_bytes last_used_stream_id).
    keeps_tac.
  - by apply keeps_create_socks_socket.
  - by apply keeps_create_raw_socket.
  - apply keeps_send_h2_connection_preface.
  - apply keeps_send_client_initial_settings_frame.
  - done.
  - pose proof (keeps_send_bytes last_used_stream_id bytes_data st) as Hs.
    unfold mbind, M_bind. destruct (send_bytes bytes_data st) as [[t|e|] st']; simpl in *;
      (split; [lia|done]).
  - apply keeps_send_frames.
  - pose proof (keeps_read_response_from_socket last_used_stream_id _timeout st) as Hs.
    unfold mbind, M_bind.
    destruct (read_response_from_socket _timeout st) as [[t|e|] st']; simpl in *;
      (split; [lia|done]).
  - apply keeps_old_parse_frames_bytes.
  - apply keeps_send_ping_frame.
  - destruct (generate_stream_ids_cases number_of_streams) as [Hv|(n & Hv & Hn)].
    + unfold mbind, M_bind. rewrite (generate_stream_ids_refused _ _ Hv). simpl.
      split; [lia|done].
    + unfold mbind, M_bind. rewrite (generate_stream_ids_accepted _ _ _ Hv Hn). simpl.
      pose proof (odd_last_used_ge (last_used_stream_id (self st))).
      unfold start_stream_id. split; [lia|].
      intros ids [= <-]. unfold end_stream_id, start_stream_id.
      rewrite py_range_step2 by lia. apply Forall_lookup. intros i x Hx.
      apply stream_ids_lookup in Hx as [-> Hi]. lia.
  - unfold lift, mbind, M_bind.
    destruct (create_single_packet_http2_request_frames _ _ _ _ _ _ _ _) as [?|?|];
      simpl; (split; [lia|done]).
  - unfold lift, mbind, M_bind.
    destruct (create_simple_http2_request _ _ _ _ _ _ _ _) as [?|?|];
      simpl; (split; [lia|done]).
  - apply keeps_send_simple_http2_request.
  - apply keeps_thread_response_frame_parsing.
Qed.

(** A whole session never lowers [last_used_stream_id], and hands out only
    identifiers above the value it started from. *)
Lemma run_last_used (ops : list op) (st : state) :
  last_used_stream_id (self st) ≤ last_used_stream_id (self (run ops st).2)
  ∧ Forall (λ j, last_used_stream_id (self st) < j) (ids_returned (run ops st).1).
Proof.
  revert st. induction ops as [|o ops IH]; intros st; simpl.
  { split; [lia|]. constructor. }
  destruct (call_last_used o st) as [Hle Hids].
  destruct (call o st) as [r st'] eqn:Ec. simpl in *.
  assert (Hcons :
    last_used_stream_id (self st) ≤ last_used_stream_id (self (run ops st').2)
    ∧ Forall (λ j, last_used_stream_id (self st) < j)
        (ids_returned (r :: (run ops st').1))).
  { destruct (IH st') as [Hle' Hids']. split; [lia|].
    unfold ids_returned in *. simpl.
    destruct r as [[]| |]; simpl; try (eapply Forall_impl; [exact Hids'|]; simpl; lia).
    apply Forall_app. split.
    - eapply Forall_impl; [by apply Hids|]. simpl. lia.
    - eapply Forall_impl; [exact Hids'|]. simpl. lia. }
  destruct r as [v|e|]; [| |split; [simpl; lia|constructor]];
    destruct (run ops st') as [rs st'']; exact Hcons.
Qed.

End Allocator.

Section AllocatorClaims.
Context `{Collaborators}.

(** C3.  For every positive integer [n], [generate_stream_ids(n)] returns
    exactly [n] strictly increasing odd stream identifiers, each greater
    than [last_used_stream_id] before the call; after the call
    [last_used_stream_id] is the last and largest identifier returned; and
    whatever is called on the connection afterwards, no later call returns
    one of these identifiers again. *)
Theorem generate_stream_ids_allocates (v : pyval) (n : Z) (st : state) :
  as_int v = Some n → 0 < n →
  ∃ ids,
    (generate_stream_ids v st).1 = Ret ids
    ∧ Z.of_nat (length ids) = n
    ∧ strictly_increasing ids
    ∧ Forall (λ i, Z.odd i = true ∧ last_used_stream_id (self st) < i) ids
    ∧ last ids = Some (last_used_stream_id (self (generate_stream_ids v st).2))
    ∧ Forall (λ i, i ≤ last_used_stream_id (self (generate_stream_ids v st).2)) ids
    ∧ ∀ ops, Forall (λ j, ∀ i, i ∈ ids → i < j)
               (ids_returned (run ops (generate_stream_ids v st).2).1).
Proof.
  intros Hv Hn. rewrite (generate_stream_ids_accepted v n st Hv Hn). simpl.
  unfold end_stream_id. rewrite py_range_step2 by lia.
  set (l := last_used_stream_id (self st)).
  set (ids := (λ i : nat, start_stream_id l + 2 * Z.of_nat i) <$> seq 0 (Z.to_nat n)).
  assert (Hbound : Forall (λ i, i ≤ start_stream_id l + 2 * (n - 1)) ids).
  { apply Forall_lookup. intros i x Hx. apply stream_ids_lookup in Hx as [-> Hi]. lia. }
  exists ids. split_and!.
  - done.
  - unfold ids. rewrite length_fmap, length_seq. lia.
  - intros i j x y Hx Hy Hij.
    apply stream_ids_lookup in Hx as [-> _]. apply stream_ids_lookup in Hy as [-> _]. lia.
  - apply Forall_lookup. intros i x Hx. apply stream_ids_lookup in Hx as [-> Hi].
    pose proof (odd_last_used_ge l). split.
    + unfold start_stream_id.
      replace (odd_last_used l + 2 + 2 * Z.of_nat i)
        with (odd_last_used l + 2 * (1 + Z.of_nat i)) by lia.
      rewrite Z.odd_add_mul_2. apply odd_last_used_odd.
    + unfold start_stream_id. lia.
  - by apply stream_ids_last.
  - done.
  - intros ops.
    match goal with |- context [run ops ?s] => destruct (run_last_used ops s) as [_ Hlater] end.
    simpl in Hlater. eapply Forall_impl; [exact Hlater|]. simpl. intros j Hj i Hi.
    rewrite Forall_forall in Hbound. specialize (Hbound i Hi). lia.
Qed.

(** C8.  [generate_stream_ids] called with 0, with -1 (with any integer
    that is not positive) or with an argument that is not an integer raises
    the [ValueError] of its argument check at once: no socket call is made
    and the connection object, [last_used_stream_id] included, is left as it
    was. *)
Theorem generate_stream_ids_rejects (v : pyval) (st : state) :
  (as_int v = None ∨ ∃ n, as_int v = Some n ∧ n ≤ 0) →
  (generate_stream_ids v st).1 = Raise (ValueError positive_integer_msg)
  ∧ self (generate_stream_ids v st).2 = self st
  ∧ io_trace (env (generate_stream_ids v st).2) = io_trace (env st).
Proof. intros Hv. by rewrite (generate_stream_ids_refused v st Hv). Qed.

(** The range error is raised for no argument at all. *)
Lemma stream_id_range_error_unreachable (v : pyval) (st : state) :
  (generate_stream_ids v st).1 ≠ Raise (ValueError stream_id_range_msg).
Proof.
  destruct (generate_stream_ids_cases v) as [Hv|(n & Hv & Hn)].
  - by rewrite (generate_stream_ids_refused v st Hv).
  - by rewrite (generate_stream_ids_accepted v n st Hv Hn).
Qed.

(** C10.  For every positive integer [n] that passes the argument check,
    the computed range satisfies
    [end_stream_id = start_stream_id + 2n > start_stream_id]; the call
    returns the identifiers of that range and the "problem with the
    stream_id range" [ValueError] is not raised. *)
Theorem stream_id_range_is_increasing (v : pyval) (n : Z) (st : state) :
  as_int v = Some n → 0 < n →
  end_stream_id (last_used_stream_id (self st)) n
  = start_stream_id (last_used_stream_id (self st)) + 2 * n
  ∧ start_stream_id (last_used_stream_id (self st))
    < end_stream_id (last_used_stream_id (self st)) n
  ∧ (generate_stream_ids v st).1
    = Ret (py_range (start_stream_id (last_used_stream_id (self st)))
                    (end_stream_id (last_used_stream_id (self st)) n) 2)
  ∧ (generate_stream_ids v st).1 ≠ Raise (ValueError stream_id_range_msg).
Proof.
  intros Hv Hn. rewrite (generate_stream_ids_accepted v n st Hv Hn). simpl.
  unfold end_stream_id. split_and!; [lia|lia|done|done].
Qed.

End AllocatorClaims.

Lemma generate_stream_ids_allocates_witness :
  as_int (PyInt 3) = Some 3 ∧ 0 < 3 ∧
  ∃ ids,
    (generate_stream_ids (PyInt 3) (SpecModel.fresh (SpecModel.healthy []))).1 = Ret ids
    ∧ Z.of_nat (length ids) = 3
    ∧ strictly_increasing ids
    ∧ Forall (λ i, Z.odd i = true
                   ∧ last_used_stream_id (self (SpecModel.fresh (SpecModel.healthy []))) < i) ids
    ∧ last ids
      = Some (last_used_stream_id
                (self (generate_stream_ids (PyInt 3)
                         (SpecModel.fresh (SpecModel.healthy []))).2))
    ∧ Forall (λ i, i ≤ last_used_stream_id
                (self (generate_stream_ids (PyInt 3)
                         (SpecModel.fresh (SpecModel.healthy []))).2)) ids
    ∧ ∀ ops, Forall (λ j, ∀ i, i ∈ ids → i < j)
               (ids_returned
                  (run (H:=SpecModel.model) ops
                     (generate_stream_ids (PyInt 3)
                        (SpecModel.fresh (SpecModel.healthy []))).2).1).
Proof.
  split; [reflexivity|]. split; [lia|].
  apply (generate_stream_ids_allocates (H:=SpecModel.model) (PyInt 3) 3
           (SpecModel.fresh (SpecModel.healthy []))); [reflexivity|lia].
Defined.

Lemma generate_stream_ids_rejects_witness :
  let st := SpecModel.fresh (SpecModel.healthy []) in
  ((generate_stream_ids (PyInt 0) st).1 = Raise (ValueError positive_integer_msg)
   ∧ self (generate_stream_ids (PyInt 0) st).2 = self st
   ∧ io_trace (env (generate_stream_ids (PyInt 0) st).2) = io_trace (env st))
  ∧ ((generate_stream_ids (PyInt (-1)) st).1 = Raise (ValueError positive_integer_msg)
     ∧ self (generate_stream_ids (PyInt (-1)) st).2 = self st
     ∧ io_trace (env (generate_stream_ids (PyInt (-1)) st).2) = io_trace (env st))
  ∧ ((generate_stream_ids (PyFloat 5 (-1)) st).1 = Raise (ValueError positive_integer_msg)
     ∧ self (generate_stream_ids (PyFloat 5 (-1)) st).2 = self st
     ∧ io_trace (env (generate_stream_ids (PyFloat 5 (-1)) st).2) = io_trace (env st)).
Proof.
  intros st. split; [|split].
  - apply (generate_stream_ids_rejects (PyInt 0) st). right. exists 0. split; [reflexivity|lia].
  - apply (generate_stream_ids_rejects (PyInt (-1)) st). right. exists (-1).
    split; [reflexivity|lia].
  - apply (generate_stream_ids_rejects (PyFloat 5 (-1)) st). left. reflexivity.
Defined.

Lemma stream_id_range_is_increasing_witness :
  let st := SpecModel.fresh (SpecModel.healthy []) in
  as_int (PyInt 3) = Some 3 ∧ 0 < 3 ∧
  end_stream_id (last_used_stream_id (self st)) 3
  = start_stream_id (last_used_stream_id (self st)) + 2 * 3
  ∧ start_stream_id (last_used_stream_id (self st))
    < end_stream_id (last_used_stream_id (self st)) 3
  ∧ (generate_stream_ids (PyInt 3) st).1
    = Ret (py_range (start_stream_id (last_used_stream_id (self st)))
                    (end_stream_id (last_used_stream_id (self st)) 3) 2)
  ∧ (generate_stream_ids (PyInt 3) st).1 ≠ Raise (ValueError stream_id_range_msg).
Proof.
  intros st. split; [reflexivity|]. split; [lia|].
  apply (stream_id_range_is_increasing (PyInt 3) 3 st); [reflexivity|lia].
Defined.

(** ** Sending *)

Section Sending.
Context `{Collaborators}.

(** [send_bytes] on a connection that holds a socket: one [send], whose
    failure is printed and swallowed unless it is a [BaseException]. *)
Lemma send_bytes_with_socket (bytes_data : bytes) (st : state) (sock : socket) :
  raw_socket (self st) = Some sock →
  send_bytes bytes_data st
  = match next_send_outcome (env st) with
    | None =>
        (Ret (Some (length (io_trace (env st)))),
         {| self := self st; env := log_io (IoSend sock bytes_data None) (env st) |})
    | Some e =>
        if is_Exception e
        then (Ret None,
              {| self := self st;
                 env := log_console (MsgSendError e)
                          (log_io (IoSend sock bytes_data (Some e)) (env st)) |})
        else (Raise e,
              {| self := self st;
                 env := log_io (IoSend sock bytes_data (Some e)) (env st) |})
    end.
Proof.
  intros Hs. unfold send_bytes, get_using_socket, get_self, mbind, M_bind, try_except, now.
  simpl. rewrite Hs. simpl. unfold next_send_outcome.
  destruct (send_outcome (env st) (length (io_trace (env st)))) as [e|]; [|done].
  simpl. by destruct (is_Exception e).
Qed.

(** [send_bytes] on a connection without a socket: nothing is sent, the
    [AttributeError] is printed and swallowed. *)
Lemma send_bytes_without_socket (bytes_data : bytes) (st : state) :
  raw_socket (self st) = None →
  send_bytes bytes_data st
  = (Ret None,
     {| self := self st;
        env := log_console (MsgSendError (none_has_no "send")) (env st) |}).
Proof.
  intros Hs. unfold send_bytes, get_using_socket, get_self, mbind, M_bind, try_except, now.
  simpl. by rewrite Hs.
Qed.

Lemma send_bytes_trace (bytes_data : bytes) (st : state) (sock : socket) :
  raw_socket (self st) = Some sock →
  io_trace (env (send_bytes bytes_data st).2)
  = io_trace (env st) ++ [IoSend sock bytes_data (next_send_outcome (env st))].
Proof.
  intros Hs. rewrite (send_bytes_with_socket _ _ _ Hs).
  destruct (next_send_outcome (env st)) as [e|]; [|done]. by destruct (is_Exception e).
Qed.

(** ** The initial SETTINGS frame *)

Lemma dict_get_elem (d : dict) (k : string) (e : setting_entry) :
  NoDup (dict_keys d) → (k, e) ∈ d → dict_get d k = Some e.
Proof.
  unfold dict_keys. induction d as [|[k' e'] d IH]; simpl; intros Hnd Hin.
  { by apply elem_of_nil in Hin. }
  apply NoDup_cons in Hnd as [Hk Hnd].
  apply elem_of_cons in Hin as [[= <- <-]|Hin].
  - by rewrite String.eqb_refl.
  - destruct (String.eqb_spec k' k) as [->|_]; [|by apply IH].
    exfalso. apply Hk. apply list_elem_of_fmap. by exists (k, e).
Qed.

Lemma settings_loop_items (d l : dict) (settings_list : list H2Setting) :
  (∀ k e, (k, e) ∈ l → dict_get d k = Some e) →
  settings_loop d l.*1 settings_list
  = Ret (settings_list ++ omap present_setting l.*2).
Proof.
  revert settings_list. induction l as [|[k e] l IH]; intros settings_list Hl; simpl.
  { by rewrite app_nil_r. }
  rewrite (Hl k e) by left. unfold present_setting at 1.
  destruct (entry_value e) as [v|]; simpl.
  - rewrite IH by (intros; apply Hl; by right). by rewrite <- app_assoc.
  - apply IH. intros. apply Hl. by right.
Qed.

(** The loop keeps the table's entries that have a value, in the table's
    order. *)
Lemma settings_loop_table (d : dict) :
  NoDup (dict_keys d) →
  settings_loop d (dict_keys d) [] = Ret (omap present_setting d.*2).
Proof.
  intros Hnd. unfold dict_keys. rewrite settings_loop_items; [done|].
  intros k e. by apply dict_get_elem.
Qed.


End Sending.


(** ** The lifecycle *)

Section Lifecycle.
Context `{Collaborators}.

(** [close_connection] on a connection that holds a socket. *)
Lemma close_connection_with_socket (st : state) (sock : socket) :
  raw_socket (self st) = Some sock →
  handled (next_send_outcome (env st)) →
  (close_connection st).1 = Ret tt
  ∧ self (close_connection st).2
    = set_is_connection_closed true (set_raw_socket None (self st))
  ∧ io_trace (env (close_connection st).2)
    = io_trace (env st)
      ++ [IoSend sock (raw (create_go_away_frame 0)) (next_send_outcome (env st));
          IoClose sock].
Proof.
  intros Hs Hh. unfold close_connection, mbind, M_bind.
  rewrite (send_bytes_with_socket _ _ _ Hs).
  destruct (next_send_outcome (env st)) as [e|] eqn:E.
  - rewrite (Hh e eq_refl). unfold get_self. simpl. rewrite Hs. simpl.
    by rewrite <- app_assoc.
  - unfold get_self. simpl. rewrite Hs. simpl. by rewrite <- app_assoc.
Qed.

(** [close_connection] on a connection without a socket: the GOAWAY frame
    is not sent, and [self.raw_socket.close()] raises. *)
Lemma close_connection_without_socket (st : state) :
  raw_socket (self st) = None →
  close_connection st
  = (Raise (none_has_no "close"),
     {| self := self st;
        env := log_console (MsgSendError (none_has_no "send")) (env st) |}).
Proof.
  intros Hs. unfold close_connection, mbind, M_bind.
  rewrite (send_bytes_without_socket _ _ Hs). unfold get_self. simpl. by rewrite Hs.
Qed.

(** C4, as the code has it.  The first [close_connection] on a connected
    instance makes exactly one [send], of the GOAWAY frame with error code
    0, then closes and drops the socket and sets the closed flag.  A second
    [close_connection] sends nothing and makes no socket call at all, but it
    is not a no-op that reports "already closed": it raises the
    [AttributeError] of [None.close()], leaving the object as it was. *)
Theorem close_connection_twice (st : state) (sock : socket) :
  raw_socket (self st) = Some sock →
  handled (next_send_outcome (env st)) →
  (close_connection st).1 = Ret tt
  ∧ io_trace (env (close_connection st).2)
    = io_trace (env st)
      ++ [IoSend sock (raw (create_go_away_frame 0)) (next_send_outcome (env st));
          IoClose sock]
  ∧ raw_socket (self (close_connection st).2) = None
  ∧ is_connection_closed (self (close_connection st).2) = true
  ∧ (close_connection (close_connection st).2).1 = Raise (none_has_no "close")
  ∧ io_trace (env (close_connection (close_connection st).2).2)
    = io_trace (env (close_connection st).2)
  ∧ self (close_connection (close_connection st).2).2 = self (close_connection st).2.
Proof.
  intros Hs Hh.
  destruct (close_connection_with_socket st sock Hs Hh) as (Hr & Hself & Htrace).
  assert (Hnone : raw_socket (self (close_connection st).2) = None) by by rewrite Hself.
  rewrite (close_connection_without_socket _ Hnone). simpl.
  split_and!; try done. by rewrite Hself.
Qed.

(** The closed flag after [setup_connection]. *)
Lemma setup_connection_flag (st : state) :
  is_connection_closed (self (setup_connection st).2)
  = match (setup_connection st).1 with
    | Ret _ => false
    | _ => is_connection_closed (self st)
    end.
Proof.
  unfold setup_connection, try_except_else.
  assert (Hb : keeps is_connection_closed
                 (_create_raw_socket;; _send_h2_connection_preface;;
                  _send_client_initial_settings_frame)).
  { pose proof (keeps_create_raw_socket is_connection_closed).
    pose proof (keeps_send_h2_connection_preface is_connection_closed).
    pose proof (keeps_send_client_initial_settings_frame is_connection_closed).
    keeps_tac. }
  specialize (Hb st).
  destruct ((_create_raw_socket;; _send_h2_connection_preface;;
             _send_client_initial_settings_frame) st) as [[[]|e|] st']; simpl in *;
    [done| |done].
  by destruct (is_Exception e).
Qed.

(** The closed flag after [close_connection]. *)
Lemma close_connection_flag (st : state) :
  is_connection_closed (self (close_connection st).2)
  = match (close_connection st).1 with
    | Ret _ => true
    | _ => is_connection_closed (self st)
    end.
Proof.
  unfold close_connection, mbind, M_bind.
  pose proof (keeps_send_bytes is_connection_closed (raw (create_go_away_frame 0)) st) as Hk.
  destruct (send_bytes _ st) as [[t|e|] st1]; simpl in *; [|done..].
  unfold get_self. simpl. by destruct (raw_socket (self st1)).
Qed.

(** Every other method leaves the closed flag alone. *)
Lemma call_keeps_flag (o : op) :
  o ≠ SetupConnection → o ≠ CloseConnection → keeps is_connection_closed (call o).
Proof.
  intros Hsetup Hclose.
  pose proof (keeps_create_socks_socket is_connection_closed).
  pose proof (keeps_create_raw_socket is_connection_closed).
  pose proof (keeps_send_h2_connection_preface is_connection_closed).
  pose proof (keeps_send_client_initial_settings_frame is_connection_closed).
  pose proof (keeps_get_using_socket is_connection_closed).
  pose proof (keeps_send_bytes is_connection_closed).
  pose proof (keeps_send_frames is_connection_closed).
  pose proof (keeps_read_response_from_socket is_connection_closed).
  pose proof (keeps_old_parse_frames_bytes is_connection_closed).
  pose proof (keeps_send_ping_frame is_connection_closed).
  pose proof (keeps_send_simple_http2_request is_connection_closed).
  pose proof (keeps_thread_response_frame_parsing is_connection_closed).
  destruct o; try done; unfold call; try (keeps_tac; fail).
  unfold generate_stream_ids. keeps_tac.
Qed.

Lemma call_setup_flag (st : state) :
  is_connection_closed (self (call SetupConnection st).2)
  = match (call SetupConnection st).1 with
    | Ret _ => false
    | _ => is_connection_closed (self st)
    end.
Proof.
  pose proof (setup_connection_flag st) as Hf. simpl. unfold mbind, M_bind.
  by destruct (setup_connection st) as [[[]|e|] st'].
Qed.

Lemma call_close_flag (st : state) :
  is_connection_closed (self (call CloseConnection st).2)
  = match (call CloseConnection st).1 with
    | Ret _ => true
    | _ => is_connection_closed (self st)
    end.
Proof.
  pose proof (close_connection_flag st) as Hf. simpl. unfold mbind, M_bind.
  by destruct (close_connection st) as [[[]|e|] st'].
Qed.

Lemma op_cases (o : op) :
  o = SetupConnection ∨ o = CloseConnection
  ∨ (o ≠ SetupConnection ∧ o ≠ CloseConnection).
Proof. destruct o; auto; right; right; done. Qed.

(** Closed stays closed until a [setup_connection] returns. *)
Lemma run_stays_closed (ops : list op) (st : state) :
  is_connection_closed (self st) = true →
  (∀ k, ¬ returned_at SetupConnection ops (run ops st).1 k) →
  is_connection_closed (self (run ops st).2) = true.
Proof.
  revert st. induction ops as [|o ops IH]; intros st Hc Hno; [done|].
  simpl in *.
  assert (Hc' : (∀ v, (call o st).1 = Ret v → o ≠ SetupConnection) →
                is_connection_closed (self (call o st).2) = true).
  { intros Hr. destruct (op_cases o) as [->|[->|[? ?]]].
    - rewrite call_setup_flag. destruct (call SetupConnection st).1 eqn:E; try done.
      by destruct (Hr _ eq_refl).
    - rewrite call_close_flag. by destruct (call CloseConnection st).1.
    - by rewrite call_keeps_flag. }
  destruct (call o st) as [r st'] eqn:Ec. simpl in *.
  destruct r as [v|e|].
  - destruct (run ops st') as [rs st''] eqn:Er. simpl.
    assert (Hst' : is_connection_closed (self st') = true).
    { apply Hc'. intros v' _ ->. apply (Hno 0%nat). split; [done|]. by exists v. }
    specialize (IH st' Hst'). rewrite Er in IH. apply IH.
    intros k [Hk Hv]. apply (Hno (S k)). by split.
  - destruct (run ops st') as [rs st''] eqn:Er. simpl.
    assert (Hst' : is_connection_closed (self st') = true) by (by apply Hc').
    specialize (IH st' Hst'). rewrite Er in IH. apply IH.
    intros k [Hk Hv]. apply (Hno (S k)). by split.
  - simpl. by apply Hc'.
Qed.

(** Open stays open until a [close_connection] returns. *)
Lemma run_stays_open (ops : list op) (st : state) :
  is_connection_closed (self st) = false →
  (∀ k, ¬ returned_at CloseConnection ops (run ops st).1 k) →
  is_connection_closed (self (run ops st).2) = false.
Proof.
  revert st. induction ops as [|o ops IH]; intros st Hc Hno; [done|].
  simpl in *.
  assert (Hc' : (∀ v, (call o st).1 = Ret v → o ≠ CloseConnection) →
                is_connection_closed (self (call o st).2) = false).
  { intros Hr. destruct (op_cases o) as [->|[->|[? ?]]].
    - rewrite call_setup_flag. by destruct (call SetupConnection st).1.
    - rewrite call_close_flag. destruct (call CloseConnection st).1 eqn:E; try done.
      by destruct (Hr _ eq_refl).
    - by rewrite call_keeps_flag. }
  destruct (call o st) as [r st'] eqn:Ec. simpl in *.
  destruct r as [v|e|].
  - destruct (run ops st') as [rs st''] eqn:Er. simpl.
    assert (Hst' : is_connection_closed (self st') = false).
    { apply Hc'. intros v' _ ->. apply (Hno 0%nat). split; [done|]. by exists v. }
    specialize (IH st' Hst'). rewrite Er in IH. apply IH.
    intros k [Hk Hv]. apply (Hno (S k)). by split.
  - destruct (run ops st') as [rs st''] eqn:Er. simpl.
    assert (Hst' : is_connection_closed (self st') = false) by (by apply Hc').
    specialize (IH st' Hst'). rewrite Er in IH. apply IH.
    intros k [Hk Hv]. apply (Hno (S k)). by split.
  - simpl. by apply Hc'.
Qed.

End Lifecycle.

Section LifecycleClaims.
Context `{Collaborators}.

(** C9, as the code has it.  A connection is constructed with the closed
    flag true; [setup_connection] sets it to false exactly when it returns,
    [close_connection] sets it to true exactly when it returns, and no
    other method changes it.  So the flag is true from construction until a
    setup returns, false from then until a teardown returns, and true (not
    false) once teardown has run. *)
Theorem closed_flag_lifecycle :
  (∀ h p t ph pp, is_connection_closed (init h p t ph pp) = true)
  ∧ (∀ o st, o ≠ SetupConnection → o ≠ CloseConnection →
       is_connection_closed (self (call o st).2) = is_connection_closed (self st))
  ∧ (∀ st, is_connection_closed (self (setup_connection st).2)
           = match (setup_connection st).1 with
             | Ret _ => false
             | _ => is_connection_closed (self st)
             end)
  ∧ (∀ st, is_connection_closed (self (close_connection st).2)
           = match (close_connection st).1 with
             | Ret _ => true
             | _ => is_connection_closed (self st)
             end)
  ∧ (∀ ops st, is_connection_closed (self st) = true →
       (∀ k, ¬ returned_at SetupConnection ops (run ops st).1 k) →
       is_connection_closed (self (run ops st).2) = true)
  ∧ (∀ ops st, is_connection_closed (self st) = false →
       (∀ k, ¬ returned_at CloseConnection ops (run ops st).1 k) →
       is_connection_closed (self (run ops st).2) = false).
Proof.
  split_and!.
  - done.
  - intros o st Hs Hc. by apply call_keeps_flag.
  - apply setup_connection_flag.
  - apply close_connection_flag.
  - apply run_stays_closed.
  - apply run_stays_open.
Qed.

(** X6.  [setup_connection] when the transport cannot be opened: the cause
    is printed, the process is told to exit with status 1, nothing is sent
    and the object is left as it was. *)
Lemma setup_connection_connect_failure (st : state) (e : exn) :
  next_connect_outcome (env st) = Some e → is_Exception e = true →
  (setup_connection st).1 = Raise (SystemExit 1)
  ∧ self (setup_connection st).2 = self st
  ∧ console (env (setup_connection st).2) = console (env st) ++ [MsgSetupError e]
  ∧ send_calls (env (setup_connection st).2) = send_calls (env st).
Proof.
  intros Hc He. unfold next_connect_outcome in Hc.
  unfold setup_connection, try_except_else, _create_raw_socket, _create_socks_socket,
    mbind, M_bind, get_self, socket_connect. simpl.
  destruct (truthy (proxy_hostname (self st))); simpl; rewrite Hc; simpl; rewrite He; simpl;
    (split_and!; try done); unfold send_calls; simpl; rewrite omap_app; simpl;
    by rewrite app_nil_r.
Qed.

Lemma create_raw_socket_connects (st : state) :
  next_connect_outcome (env st) = None →
  ∃ sock st',
    _create_raw_socket st = (Ret tt, st')
    ∧ self st' = set_raw_socket (Some sock) (self st)
    ∧ send_outcome (env st') = send_outcome (env st).
Proof.
  intros Hc. unfold next_connect_outcome in Hc.
  unfold _create_raw_socket, _create_socks_socket, mbind, M_bind, get_self,
    socket_connect. simpl.
  destruct (truthy (proxy_hostname (self st))); simpl; rewrite Hc; simpl;
    by eexists _, _.
Qed.

Lemma send_bytes_handled (bytes_data : bytes) (st : state) (sock : socket) :
  raw_socket (self st) = Some sock →
  (∀ k, handled (send_outcome (env st) k)) →
  ∃ t st',
    send_bytes bytes_data st = (Ret t, st')
    ∧ self st' = self st
    ∧ send_outcome (env st') = send_outcome (env st).
Proof.
  intros Hs Hh. rewrite (send_bytes_with_socket _ _ _ Hs).
  destruct (next_send_outcome (env st)) as [e|] eqn:E; [|by eexists _, _].
  rewrite (Hh _ e E). by eexists _, _.
Qed.

(** [setup_connection] once the transport is open: whether the two sends
    succeed or fail, it returns and declares the connection open. *)
Lemma setup_connection_after_connect (st : state) :
  next_connect_outcome (env st) = None →
  NoDup (dict_keys (DEFAULT_SETTINGS (self st))) →
  (∀ k, handled (send_outcome (env st) k)) →
  (setup_connection st).1 = Ret tt
  ∧ is_connection_closed (self (setup_connection st).2) = false.
Proof.
  intros Hc Hnd Hh.
  assert (Hr : (setup_connection st).1 = Ret tt); [|by rewrite setup_connection_flag, Hr].
  destruct (create_raw_socket_connects st Hc) as (sock & st1 & E1 & Hself1 & Hout1).
  assert (Hs1 : raw_socket (self st1) = Some sock) by by rewrite Hself1.
  assert (Hh1 : ∀ k, handled (send_outcome (env st1) k)) by by rewrite Hout1.
  destruct (send_bytes_handled H2_PREFACE st1 sock Hs1 Hh1) as (t2 & st2 & E2 & Hself2 & Hout2).
  set (st2' := {| self := self st2; env := log_console MsgPrefaceSent (env st2) |}).
  assert (Hs2 : raw_socket (self st2') = Some sock) by (simpl; by rewrite Hself2).
  assert (Hh2 : ∀ k, handled (send_outcome (env st2') k)) by (simpl; by rewrite Hout2).
  destruct (send_bytes_handled
              (raw (create_settings_frame
                      (omap present_setting (DEFAULT_SETTINGS (self st2')).*2)))
              st2' sock Hs2 Hh2) as (t3 & st3 & E3 & _ & _).
  assert (Hnd2 : NoDup (dict_keys (DEFAULT_SETTINGS (self st2')))).
  { simpl. by rewrite Hself2, Hself1. }
  unfold setup_connection, try_except_else, mbind, M_bind. rewrite E1.
  unfold _send_h2_connection_preface, mbind, M_bind. rewrite E2.
  unfold print, update_env. fold st2'.
  unfold _send_client_initial_settings_frame, mbind, M_bind, get_self, lift.
  rewrite (settings_loop_table _ Hnd2). rewrite E3. done.
Qed.

End LifecycleClaims.

(** A connected instance of the reference implementation. *)
Lemma connected_instance :
  let st := (setup_connection (H:=SpecModel.model) (SpecModel.fresh (SpecModel.healthy []))).2 in
  raw_socket (self st) = Some {| fileno := 0 |}
  ∧ is_connection_closed (self st) = false
  ∧ next_send_outcome (env st) = None
  ∧ (close_connection (H:=SpecModel.model) st).1 = Ret tt.
Proof. by vm_compute. Qed.

Lemma close_connection_twice_witness :
  let st := (setup_connection (H:=SpecModel.model) (SpecModel.fresh (SpecModel.healthy []))).2 in
  let sock := {| fileno := 0 |} in
  raw_socket (self st) = Some sock
  ∧ handled (next_send_outcome (env st))
  ∧ (close_connection (H:=SpecModel.model) st).1 = Ret tt
  ∧ io_trace (env (close_connection (H:=SpecModel.model) st).2)
    = io_trace (env st)
      ++ [IoSend sock (SpecModel.model_raw (create_go_away_frame (Collaborators:=SpecModel.model) 0))
            (next_send_outcome (env st));
          IoClose sock]
  ∧ raw_socket (self (close_connection (H:=SpecModel.model) st).2) = None
  ∧ is_connection_closed (self (close_connection (H:=SpecModel.model) st).2) = true
  ∧ (close_connection (H:=SpecModel.model) (close_connection (H:=SpecModel.model) st).2).1
    = Raise (none_has_no "close")
  ∧ io_trace (env (close_connection (H:=SpecModel.model)
                     (close_connection (H:=SpecModel.model) st).2).2)
    = io_trace (env (close_connection (H:=SpecModel.model) st).2)
  ∧ self (close_connection (H:=SpecModel.model)
            (close_connection (H:=SpecModel.model) st).2).2
    = self (close_connection (H:=SpecModel.model) st).2.
Proof.
  intros st sock.
  assert (Hs : raw_socket (self st) = Some sock) by reflexivity.
  assert (Hh : handled (next_send_outcome (env st))).
  { intros e He. vm_compute in He. discriminate He. }
  split; [exact Hs|]. split; [exact Hh|].
  exact (close_connection_twice (H:=SpecModel.model) st sock Hs Hh).
Defined.

(** C4, as stated, fails on a connected instance that is closed twice: the
    second [close_connection] does not return. *)
Lemma second_close_raises :
  ¬ second_close_is_a_reported_no_op (H:=SpecModel.model)
      (setup_connection (H:=SpecModel.model) (SpecModel.fresh (SpecModel.healthy []))).2.
Proof.
  intros Hclaim. destruct Hclaim as [Hret _]; [by vm_compute|].
  vm_compute in Hret. discriminate Hret.
Qed.

(** C9, as stated, fails on a connected instance that is closed: the flag is
    true, not false, once teardown has run. *)
Lemma closed_flag_true_after_teardown :
  ¬ closed_flag_false_after_teardown (H:=SpecModel.model)
      (setup_connection (H:=SpecModel.model) (SpecModel.fresh (SpecModel.healthy []))).2.
Proof.
  intros Hclaim. specialize (Hclaim ltac:(by vm_compute)).
  vm_compute in Hclaim. discriminate Hclaim.
Qed.

Lemma closed_flag_lifecycle_witness :
  let st0 := SpecModel.fresh (SpecModel.healthy []) in
  let st1 := (setup_connection (H:=SpecModel.model) st0).2 in
  let st2 := (close_connection (H:=SpecModel.model) st1).2 in
  is_connection_closed (self st0) = true
  ∧ is_connection_closed (self (call (H:=SpecModel.model) (GenerateStreamIds (PyInt 2)) st0).2)
    = is_connection_closed (self st0)
  ∧ is_connection_closed (self st1) = false
  ∧ is_connection_closed (self st2) = true.
Proof.
  intros st0 st1 st2.
  destruct (closed_flag_lifecycle (H:=SpecModel.model)) as (Hinit & Hkeep & Hsetup & Hclose & _).
  split; [apply Hinit|]. split; [by apply Hkeep|].
  split; [exact (Hsetup st0)|exact (Hclose st1)].
Defined.

(** C5.  On a host that accepts the connection but on which sending fails
    (both the preface and the SETTINGS frame meet a broken pipe),
    [setup_connection] returns normally and sets the closed flag to false:
    [send_bytes] has printed and swallowed both failures before the
    [except] clause of [setup_connection] could see them. *)
Theorem setup_connection_survives_failed_sends :
  let st := SpecModel.fresh SpecModel.broken_pipe in
  (setup_connection (H:=SpecModel.model) st).1 = Ret tt
  ∧ is_connection_closed (self (setup_connection (H:=SpecModel.model) st).2) = false
  ∧ wire (env (setup_connection (H:=SpecModel.model) st).2) = []
  ∧ console (env (setup_connection (H:=SpecModel.model) st).2)
    = [MsgConnected false (SpecModel.str "example.com") 80;
       MsgSendError (OSError "Broken pipe"); MsgPrefaceSent;
       MsgSendError (OSError "Broken pipe"); MsgSettingsSent].
Proof. by vm_compute. Qed.

(** ** The response reader *)

Section Reader.
Context `{Collaborators}.

(** The loop gathers the reads up to the first empty read or timeout. *)
Lemma recv_loop_drains (sock : socket) (chunks : list bytes) (stop : recv_event)
    (rest : list recv_event) (response : bytes) (st : state) :
  Forall (λ d, d ≠ []) chunks → ends_drain stop →
  (recv_loop sock ((Received <$> chunks) ++ stop :: rest) response st).1
  = Ret (response ++ concat chunks)
  ∧ inbound (env (recv_loop sock ((Received <$> chunks) ++ stop :: rest) response st).2)
    = rest.
Proof.
  intros Hne Hstop. revert response st.
  induction Hne as [|d chunks Hd Hne IH]; intros response st; simpl.
  - rewrite app_nil_r. by destruct Hstop as [->| ->].
  - destruct d as [|x d]; [done|]. rewrite app_assoc. apply IH.
Qed.

(** The loop never lets a timeout out. *)
Lemma recv_loop_no_timeout (sock : socket) (evs : list recv_event) (response : bytes)
    (st : state) :
  (recv_loop sock evs response st).1 ≠ Raise SocketTimeout.
Proof.
  revert response st. induction evs as [|ev evs IH]; intros response st; simpl; [done|].
  destruct ev as [[|x d]|e]; [done|apply IH|]. by destruct e.
Qed.

(** The timeout in force: the argument, or [read_timeout] when it is
    [None]. *)
Lemma read_response_from_socket_ready (_timeout : pyval) (st : state) (sock : socket) :
  raw_socket (self st) = Some sock →
  settimeout_outcome (env st)
    (match _timeout with PyNone => read_timeout (self st) | _ => _timeout end) = None →
  read_response_from_socket _timeout st
  = recv_loop sock (inbound (env st)) []
      {| self := self st;
         env := log_io (IoSetTimeout sock
                          (match _timeout with
                           | PyNone => read_timeout (self st)
                           | _ => _timeout
                           end) None) (env st) |}.
Proof.
  intros Hs Ht.
  unfold read_response_from_socket, get_using_socket, mbind, M_bind, get_self, try_except.
  simpl. rewrite Hs. simpl. rewrite Ht. done.
Qed.

(** C7, as the code has it.  Whatever the timeout argument,
    [read_response_from_socket] never raises [socket.timeout]; when the
    timeout cannot be set it returns the empty buffer; and otherwise it
    reads until the first empty read (the peer closed the stream) or the
    first [socket.timeout], and returns the concatenation of everything
    read before it, the empty buffer when nothing was.  The guarantee is
    for [socket.timeout] only: what a read raises otherwise is not
    caught. *)
Theorem read_response_from_socket_drains (_timeout : pyval) (st : state) :
  (read_response_from_socket _timeout st).1 ≠ Raise SocketTimeout
  ∧ (∀ e,
       raw_socket (self st) = None
       ∨ (settimeout_outcome (env st)
            (match _timeout with PyNone => read_timeout (self st) | _ => _timeout end)
          = Some e ∧ is_Exception e = true) →
       (read_response_from_socket _timeout st).1 = Ret []
       ∧ inbound (env (read_response_from_socket _timeout st).2) = inbound (env st))
  ∧ (∀ sock chunks stop rest,
       raw_socket (self st) = Some sock →
       settimeout_outcome (env st)
         (match _timeout with PyNone => read_timeout (self st) | _ => _timeout end)
       = None →
       inbound (env st) = (Received <$> chunks) ++ stop :: rest →
       Forall (λ d, d ≠ []) chunks → ends_drain stop →
       (read_response_from_socket _timeout st).1 = Ret (concat chunks)
       ∧ inbound (env (read_response_from_socket _timeout st).2) = rest).
Proof.
  split_and!.
  - unfold read_response_from_socket, get_using_socket, mbind, M_bind, get_self, try_except.
    simpl. destruct (raw_socket (self st)) as [sock|]; simpl; [|done].
    destruct (settimeout_outcome _ _) as [e|]; simpl.
    + destruct e; simpl; done.
    + apply recv_loop_no_timeout.
  - intros e Hfail.
    unfold read_response_from_socket, get_using_socket, mbind, M_bind, get_self, try_except.
    simpl. destruct Hfail as [->|[Ht He]]; simpl; [done|].
    destruct (raw_socket (self st)) as [sock|]; simpl; [|done].
    rewrite Ht. simpl. by rewrite He.
  - intros sock chunks stop rest Hs Ht Hin Hne Hstop.
    rewrite (read_response_from_socket_ready _ _ _ Hs Ht), Hin.
    apply (recv_loop_drains sock chunks stop rest [] _ Hne Hstop).
Qed.

End Reader.

Lemma read_response_from_socket_drains_witness :
  let script := [Received [x01]; Received [x02; x03]; RecvRaises SocketTimeout; Received [x04]] in
  let st := (setup_connection (H:=SpecModel.model) (SpecModel.fresh (SpecModel.healthy script))).2 in
  let quiet :=
    (setup_connection (H:=SpecModel.model)
       (SpecModel.fresh (SpecModel.healthy [RecvRaises SocketTimeout]))).2 in
  ((read_response_from_socket (PyFloat 1 (-1)) st).1 = Ret [x01; x02; x03]
   ∧ inbound (env (read_response_from_socket (PyFloat 1 (-1)) st).2) = [Received [x04]])
  ∧ ((read_response_from_socket (PyFloat 1 (-1)) quiet).1 = Ret []
     ∧ inbound (env (read_response_from_socket (PyFloat 1 (-1)) quiet).2) = []).
Proof.
  intros script st quiet. split.
  - apply (proj2 (proj2 (read_response_from_socket_drains (PyFloat 1 (-1)) st))
             {| fileno := 0 |} [[x01]; [x02; x03]] (RecvRaises SocketTimeout) [Received [x04]]).
    + reflexivity.
    + reflexivity.
    + reflexivity.
    + repeat constructor; discriminate.
    + right. reflexivity.
  - apply (proj2 (proj2 (read_response_from_socket_drains (PyFloat 1 (-1)) quiet))
             {| fileno := 0 |} [] (RecvRaises SocketTimeout) []).
    + reflexivity.
    + reflexivity.
    + reflexivity.
    + constructor.
    + right. reflexivity.
Defined.

(** C7, as stated, fails for the timeout 0: the socket is then
    non-blocking, and on a connected socket on which nothing arrives the
    first [recv] raises [BlockingIOError], which the loop does not catch. *)
Lemma quiet_read_with_timeout_zero_raises :
  ¬ quiet_read_returns_empty_buffer (PyInt 0)
      (setup_connection (H:=SpecModel.model)
         (SpecModel.fresh (SpecModel.healthy (quiet_socket (PyInt 0))))).2.
Proof.
  intros Hclaim. specialize (Hclaim eq_refl). vm_compute in Hclaim. discriminate Hclaim.
Qed.

(** What the call of that example does: it raises the error of the read. *)
Lemma quiet_read_with_timeout_zero :
  (read_response_from_socket (PyInt 0)
     (setup_connection (H:=SpecModel.model)
        (SpecModel.fresh (SpecModel.healthy (quiet_socket (PyInt 0))))).2).1
  = Raise blocking_io_error.
Proof. reflexivity. Qed.

(** Under a positive timeout the same socket gives the empty buffer. *)
Lemma quiet_read_with_positive_timeout (_timeout : pyval) (st : state) (sock : socket)
    (z e : Z) :
  raw_socket (self st) = Some sock →
  timeout_in_force _timeout (self st) = PyInt z
  ∨ timeout_in_force _timeout (self st) = PyFloat z e →
  0 < z →
  settimeout_outcome (env st) (timeout_in_force _timeout (self st)) = None →
  inbound (env st) = quiet_socket (timeout_in_force _timeout (self st)) →
  (read_response_from_socket _timeout st).1 = Ret [].
Proof.
  intros Hs Hz Hpos Ht Hin.
  rewrite (read_response_from_socket_ready _ _ _ Hs Ht), Hin.
  assert (Hq : quiet_socket (timeout_in_force _timeout (self st)) = [RecvRaises SocketTimeout]).
  { destruct Hz as [-> | ->]; simpl;
      (destruct (Z.eqb_spec z 0); [lia|]); by destruct (Z.ltb_spec 0 z); [|lia]. }
  by rewrite Hq.
Qed.

(** ** The request splitter *)

Section Splitter.
Context `{Collaborators}.

Lemma slices_snoc (d : bytes) (x : byte) :
  last_slice (d ++ [x]) = [x] ∧ but_last_slice (d ++ [x]) = d.
Proof.
  unfold last_slice, but_last_slice. rewrite length_app. simpl.
  replace (length d + 1 - 1)%nat with (length d) by lia.
  by rewrite drop_app_length, take_app_length.
Qed.

Lemma nonempty_snoc (d : bytes) : d ≠ [] → ∃ d' x, d = d' ++ [x].
Proof.
  destruct d as [|y d] using rev_ind; [done|]. intros _. by eexists _, _.
Qed.

Lemma replace_last (init : H2Seq) (f g : H2Frame) :
  <[(length (init ++ [f]) - 1)%nat := g]> (init ++ [f]) = init ++ [g].
Proof.
  rewrite length_app. simpl.
  replace (length init + 1 - 1)%nat with (length init + 0)%nat by lia.
  by rewrite insert_app_r.
Qed.

Lemma last_frame_data_snoc (init : H2Seq) (f : H2Frame) (d : bytes) :
  frame_data f = Some d → last_frame_data (init ++ [f]) = Ret d.
Proof. intros Hd. unfold last_frame_data. by rewrite last_snoc, Hd. Qed.

Lemma set_last_frame_data_snoc (init : H2Seq) (f : H2Frame) (d d' : bytes) :
  frame_data f = Some d →
  set_last_frame_data d' (init ++ [f]) = Ret (init ++ [set_payload (H2DataFrame d') f]).
Proof.
  intros Hd. unfold set_last_frame_data. by rewrite last_snoc, Hd, replace_last.
Qed.

Lemma remove_last_frame_flag_snoc (init : H2Seq) (f : H2Frame) (fl : string) :
  fl ∈ flags f →
  remove_last_frame_flag fl (init ++ [f]) = Ret (init ++ [set_flags (flags f ∖ {[fl]}) f]).
Proof.
  intros Hfl. unfold remove_last_frame_flag. rewrite last_snoc.
  destruct (decide (fl ∈ flags f)); [|done]. by rewrite replace_last.
Qed.

Lemma seq_data_snoc (init : H2Seq) (f : H2Frame) :
  seq_data (init ++ [f]) = seq_data init ++ default [] (frame_data f).
Proof.
  unfold seq_data. rewrite omap_app, concat_app. simpl.
  destruct (frame_data f); simpl; by rewrite ?app_nil_r.
Qed.

Lemma removed_flag_absent (fl : string) (fls : gset string) : fl ∉ fls ∖ {[fl]}.
Proof. rewrite elem_of_difference. intros [_ Hn]. apply Hn. by apply elem_of_singleton. Qed.

Lemma encode_body_nonempty (body : pystr) (b : bytes) :
  body ≠ [] → utf8_encode body = Ret b → encode_body (Some body) = Ret (BodyBytes b).
Proof.
  intros Hne Henc. unfold encode_body. destruct body as [|c body]; [done|].
  simpl truthy. cbv iota. by rewrite Henc.
Qed.

(** C1.  For a request whose body has at least one character, and for
    which the frame builder hands back the body in DATA frames, the last of
    them not empty, with the end-of-stream flag on the last frame only:
    the trigger frame carries exactly one byte, the bytes of the bulk group
    followed by that byte are the encoded body, the trigger frame holds the
    end-of-stream flag and no frame of the bulk group does. *)
Theorem single_packet_split_with_body
    (authority scheme path headers_string : pystr) (sid : Z) (body : pystr)
    (check_headers_lowercase : bool) (method : pystr) (b : bytes) (fs : H2Seq) :
  body ≠ [] →
  utf8_encode body = Ret b →
  create_headers_frame method authority scheme path
    (if check_headers_lowercase then make_header_names_small headers_string
     else headers_string) sid (BodyBytes b) = Ret fs →
  seq_data fs = b →
  ends_with_data fs →
  end_stream_on_last_only fs →
  ∃ bulk trigger x,
    create_single_packet_http2_request_frames authority scheme path headers_string sid
      (Some body) check_headers_lowercase method = Ret (bulk, trigger)
    ∧ frame_data trigger = Some [x]
    ∧ seq_data bulk ++ [x] = b
    ∧ "ES" ∈ flags trigger
    ∧ Forall (λ f, "ES" ∉ flags f) bulk
    ∧ stream_id trigger = sid
    ∧ length bulk = length fs.
Proof.
  intros Hne Henc Hcodec Hdata (f' & d & Hlast & Hd & Hdne) (init & f & -> & Hes & Hinit).
  rewrite last_snoc in Hlast. injection Hlast as <-.
  destruct (nonempty_snoc d Hdne) as (d' & x & ->).
  destruct (slices_snoc d' x) as [Hl Hb].
  set (f1 := set_payload (H2DataFrame d') f).
  set (f2 := set_flags (flags f1 ∖ {["ES"%string]}) f1).
  exists (init ++ [f2]),
    {| flags := {["ES"%string]}; stream_id := sid; payload := H2DataFrame [x] |}, x.
  split_and!.
  - unfold create_single_packet_http2_request_frames.
    rewrite (encode_body_nonempty body b Hne Henc).
    unfold mbind at 1, outcome_bind at 1. rewrite Hcodec.
    unfold mbind, outcome_bind.
    rewrite (last_frame_data_snoc init f _ Hd).
    rewrite (set_last_frame_data_snoc init f _ _ Hd), Hb, Hl. fold f1.
    rewrite (remove_last_frame_flag_snoc init f1 "ES" Hes). done.
  - done.
  - rewrite seq_data_snoc in Hdata. rewrite Hd in Hdata. simpl in Hdata.
    rewrite seq_data_snoc. simpl. rewrite <- Hdata. by rewrite <- !app_assoc.
  - cbn [flags]. by apply elem_of_singleton_2.
  - apply Forall_app. split; [done|]. apply Forall_singleton. apply removed_flag_absent.
  - done.
  - by rewrite !length_app.
Qed.

(** C2.  For a request without a body, for which the frame builder hands
    back frames on the request's stream with the end-of-stream flag on the
    last frame only: the trigger frame is a frame of its own on the same
    stream, with no payload byte and with the end-of-stream flag; the bulk
    group is the built request with that flag removed from its last frame,
    so that no frame of the bulk group holds it. *)
Theorem single_packet_split_without_body
    (authority scheme path headers_string : pystr) (sid : Z)
    (check_headers_lowercase : bool) (method : pystr) (fs : H2Seq) :
  create_headers_frame method authority scheme path
    (if check_headers_lowercase then make_header_names_small headers_string
     else headers_string) sid BodyNone = Ret fs →
  end_stream_on_last_only fs →
  on_stream sid fs →
  ∃ bulk trigger init f,
    create_single_packet_http2_request_frames authority scheme path headers_string sid
      None check_headers_lowercase method = Ret (bulk, trigger)
    ∧ frame_data trigger = Some []
    ∧ stream_id trigger = sid
    ∧ flags trigger = {["ES"%string]}
    ∧ fs = init ++ [f]
    ∧ bulk = init ++ [set_flags (flags f ∖ {["ES"%string]}) f]
    ∧ Forall (λ g, "ES" ∉ flags g) bulk
    ∧ on_stream sid bulk
    ∧ trigger ∉ bulk.
Proof.
  intros Hcodec (init & f & -> & Hes & Hinit) Hsid.
  set (f2 := set_flags (flags f ∖ {["ES"%string]}) f).
  assert (Hbulk : Forall (λ g, "ES" ∉ flags g) (init ++ [f2])).
  { apply Forall_app. split; [done|]. apply Forall_singleton. apply removed_flag_absent. }
  exists (init ++ [f2]),
    {| flags := {["ES"%string]}; stream_id := sid; payload := H2DataFrame [] |}, init, f.
  split_and!; try done.
  - unfold create_single_packet_http2_request_frames. simpl encode_body.
    unfold mbind at 1, outcome_bind at 1.
    unfold mbind at 1, outcome_bind at 1. rewrite Hcodec.
    unfold mbind, outcome_bind.
    by rewrite (remove_last_frame_flag_snoc init f "ES" Hes).
  - unfold on_stream in *. apply Forall_app in Hsid as [Hi Hf].
    apply Forall_app. split; [done|]. apply Forall_singleton.
    rewrite Forall_singleton in Hf. exact Hf.
  - intros Hin. rewrite Forall_forall in Hbulk. apply (Hbulk _ Hin). cbn [flags].
    by apply elem_of_singleton_2.
Qed.

End Splitter.

Lemma single_packet_split_with_body_witness :
  let body := SpecModel.str "abc" in
  body ≠ [] ∧ utf8_encode body = Ret [x61; x62; x63] ∧
  ∃ bulk trigger x,
    create_single_packet_http2_request_frames (H:=SpecModel.model)
      (SpecModel.str "example.com") (SpecModel.str "https") (SpecModel.str "/")
      (SpecModel.str "User-Agent: h2") 3 (Some body) true (SpecModel.str "POST")
    = Ret (bulk, trigger)
    ∧ frame_data trigger = Some [x]
    ∧ seq_data bulk ++ [x] = [x61; x62; x63]
    ∧ "ES" ∈ flags trigger
    ∧ Forall (λ f, "ES" ∉ flags f) bulk
    ∧ stream_id trigger = 3
    ∧ length bulk = 2%nat.
Proof.
  intros body. split; [discriminate|]. split; [reflexivity|].
  eapply (single_packet_split_with_body (H:=SpecModel.model)
            (SpecModel.str "example.com") (SpecModel.str "https") (SpecModel.str "/")
            (SpecModel.str "User-Agent: h2") 3 body true (SpecModel.str "POST")
            [x61; x62; x63] SpecModel.example_post).
  - discriminate.
  - reflexivity.
  - vm_compute. reflexivity.
  - reflexivity.
  - eexists _, _. split; [reflexivity|]. split; [reflexivity|discriminate].
  - eexists [_], _. split; [reflexivity|]. split.
    + cbn [flags]. apply elem_of_singleton_2. reflexivity.
    + apply Forall_singleton. cbn [flags]. apply not_elem_of_singleton_2. discriminate.
Defined.

Lemma single_packet_split_without_body_witness :
  ∃ bulk trigger init f,
    create_single_packet_http2_request_frames (H:=SpecModel.model)
      (SpecModel.str "example.com") (SpecModel.str "https") (SpecModel.str "/")
      (SpecModel.str "User-Agent: h2") 3 None true (SpecModel.str "GET")
    = Ret (bulk, trigger)
    ∧ frame_data trigger = Some []
    ∧ stream_id trigger = 3
    ∧ flags trigger = {["ES"%string]}
    ∧ SpecModel.example_get = init ++ [f]
    ∧ bulk = init ++ [set_flags (flags f ∖ {["ES"%string]}) f]
    ∧ Forall (λ g, "ES" ∉ flags g) bulk
    ∧ on_stream 3 bulk
    ∧ trigger ∉ bulk.
Proof.
  eapply (single_packet_split_without_body (H:=SpecModel.model)
            (SpecModel.str "example.com") (SpecModel.str "https") (SpecModel.str "/")
            (SpecModel.str "User-Agent: h2") 3 true (SpecModel.str "GET")
            SpecModel.example_get).
  - vm_compute. reflexivity.
  - eexists [], _. split; [reflexivity|]. split.
    + cbn [flags]. apply elem_of_union_r. apply elem_of_singleton_2. reflexivity.
    + constructor.
  - apply Forall_singleton. reflexivity.
Defined.

(** ** The encoding and the reference implementation *)

Lemma H2_PREFACE_length : length H2_PREFACE = 24%nat.
Proof. reflexivity. Qed.

(** A body of at least one character has at least one byte. *)
Lemma utf8_encode_nonempty (body : pystr) (b : bytes) :
  body ≠ [] → utf8_encode body = Ret b → b ≠ [].
Proof.
  destruct body as [|c body]; [done|]. intros _. simpl.
  destruct (utf8_encode_cp c) as [bs|] eqn:Ec; [|done].
  assert (bs ≠ []) as Hbs.
  { unfold utf8_encode_cp in Ec.
    repeat match type of Ec with
           | (if ?t then _ else _) = _ => destruct t
           end; by inversion Ec. }
  destruct (utf8_encode body) as [rest| |]; [|done..].
  intros [= <-]. by destruct bs.
Qed.

(** The reference frame builder hands back requests of the expected
    shapes. *)
Lemma model_builds_with_body
    (method authority scheme path headers_string : pystr) (sid : Z) (b : bytes) :
  b ≠ [] →
  ∃ fs,
    SpecModel.model_create_headers_frame method authority scheme path headers_string sid
      (BodyBytes b) = Ret fs
    ∧ seq_data fs = b ∧ ends_with_data fs ∧ end_stream_on_last_only fs ∧ on_stream sid fs.
Proof.
  intros Hb. destruct b as [|x b]; [done|]. eexists. split; [reflexivity|].
  split_and!.
  - unfold seq_data. simpl. by rewrite app_nil_r.
  - eexists _, _. split; [reflexivity|]. split; [reflexivity|done].
  - eexists [_], _. split; [reflexivity|]. split.
    + cbn [flags]. by apply elem_of_singleton_2.
    + apply Forall_singleton. cbn [flags]. by apply not_elem_of_singleton_2.
  - repeat constructor.
Qed.

Lemma model_builds_without_body
    (method authority scheme path headers_string : pystr) (sid : Z) :
  ∃ fs,
    SpecModel.model_create_headers_frame method authority scheme path headers_string sid
      BodyNone = Ret fs
    ∧ end_stream_on_last_only fs ∧ on_stream sid fs.
Proof.
  eexists. split; [reflexivity|]. split.
  - eexists [], _. split; [reflexivity|]. split; [|constructor].
    cbn [flags]. apply elem_of_union_r. by apply elem_of_singleton_2.
  - repeat constructor.
Qed.

(** * Further properties *)

(** ** Allocation, call after call *)

Section AllocatorMore.
Context `{Collaborators}.

Lemma odd_last_used_of_odd (l : Z) : Z.odd l = true → odd_last_used l = l.
Proof.
  intros Hl. unfold odd_last_used. rewrite Zmod_odd, Hl. done.
Qed.

Lemma stream_ids_append (start n m : Z) :
  0 ≤ n → 0 ≤ m →
  ((λ i : nat, start + 2 * Z.of_nat i) <$> seq 0 (Z.to_nat n))
  ++ ((λ i : nat, start + 2 * n + 2 * Z.of_nat i) <$> seq 0 (Z.to_nat m))
  = (λ i : nat, start + 2 * Z.of_nat i) <$> seq 0 (Z.to_nat (n + m)).
Proof.
  intros Hn Hm. rewrite Z2Nat.inj_add by done. rewrite seq_app, fmap_app. f_equal.
  replace (0 + Z.to_nat n)%nat with (Z.to_nat n + 0)%nat by lia.
  rewrite <- (fmap_add_seq (Z.to_nat n) 0 (Z.to_nat m)), <- list_fmap_compose.
  apply list_fmap_ext. intros _ i _. simpl. lia.
Qed.

(** Every method but [generate_stream_ids] leaves [last_used_stream_id]
    alone. *)
Lemma call_keeps_last_used (o : op) :
  (∀ v, o ≠ GenerateStreamIds v) → keeps last_used_stream_id (call o).
Proof.
  intros Hgen.
  pose proof (keeps_create_socks_socket last_used_stream_id).
  pose proof (keeps_create_raw_socket last_used_stream_id).
  pose proof (keeps_send_h2_connection_preface last_used_stream_id).
  pose proof (keeps_send_client_initial_settings_frame last_used_stream_id).
  pose proof (keeps_get_using_socket last_used_stream_id).
  pose proof (keeps_send_bytes last_used_stream_id).
  pose proof (keeps_send_frames last_used_stream_id).
  pose proof (keeps_read_response_from_socket last_used_stream_id).
  pose proof (keeps_old_parse_frames_bytes last_used_stream_id).
  pose proof (keeps_send_ping_frame last_used_stream_id).
  pose proof (keeps_send_simple_http2_request last_used_stream_id).
  pose proof (keeps_thread_response_frame_parsing last_used_stream_id).
  destruct o; try (by destruct (Hgen number_of_streams)); unfold call; keeps_tac.
Qed.

(** What one call does to [last_used_stream_id] when it is odd. *)
Lemma call_last_used_odd (o : op) (st : state) :
  Z.odd (last_used_stream_id (self st)) = true →
  Z.odd (last_used_stream_id (self (call o st).2)) = true
  ∧ ∀ ids, (call o st).1 = Ret (VIds ids) → Forall (λ i, Z.odd i = true) ids.
Proof.
  intros Hodd.
  assert (Hother : (∀ v, o ≠ GenerateStreamIds v) →
    Z.odd (last_used_stream_id (self (call o st).2)) = true
    ∧ ∀ ids, (call o st).1 = Ret (VIds ids) → Forall (λ i, Z.odd i = true) ids).
  { intros Hgen. split; [by rewrite (call_keeps_last_used o Hgen st)|].
    intros ids Hids. destruct (call_last_used o st) as [_ Hin].
    specialize (Hin ids Hids). rewrite (call_keeps_last_used o Hgen st) in Hin.
    apply Forall_lookup. intros i x Hx.
    rewrite Forall_lookup in Hin. specialize (Hin i x Hx). lia. }
  destruct o; try (by apply Hother).
  simpl. unfold mbind, M_bind.
  destruct (generate_stream_ids_cases number_of_streams) as [Hv|(n & Hv & Hn)].
  - rewrite (generate_stream_ids_refused _ _ Hv). simpl. by split.
  - rewrite (generate_stream_ids_accepted _ _ _ Hv Hn). simpl.
    unfold end_stream_id, start_stream_id.
    rewrite (odd_last_used_of_odd _ Hodd). split.
    + replace (last_used_stream_id (self st) + 2 + 2 * (n - 1))
        with (last_used_stream_id (self st) + 2 * n) by lia.
      by rewrite Z.odd_add_mul_2.
    + intros ids [= <-]. rewrite py_range_step2 by lia.
      apply Forall_lookup. intros i x Hx. apply stream_ids_lookup in Hx as [-> _].
      replace (last_used_stream_id (self st) + 2 + 2 * Z.of_nat i)
        with (last_used_stream_id (self st) + 2 * (1 + Z.of_nat i)) by lia.
      by rewrite Z.odd_add_mul_2.
Qed.

(** X1.  Two allocations in a row hand out what one allocation of the sum
    would: the second list continues the first without a gap, and the
    connection object ends up the same. *)
Theorem generate_stream_ids_contiguous (v1 v2 : pyval) (n m : Z) (st : state) :
  as_int v1 = Some n → 0 < n → as_int v2 = Some m → 0 < m →
  ∃ ids1 ids2,
    (generate_stream_ids v1 st).1 = Ret ids1
    ∧ (generate_stream_ids v2 (generate_stream_ids v1 st).2).1 = Ret ids2
    ∧ generate_stream_ids (PyInt (n + m)) st
      = (Ret (ids1 ++ ids2), (generate_stream_ids v2 (generate_stream_ids v1 st).2).2).
Proof.
  intros Hv1 Hn Hv2 Hm.
  rewrite (generate_stream_ids_accepted v1 n st Hv1 Hn). simpl.
  rewrite (generate_stream_ids_accepted v2 m _ Hv2 Hm). simpl.
  rewrite (generate_stream_ids_accepted (PyInt (n + m)) (n + m) st eq_refl) by lia.
  set (l := last_used_stream_id (self st)).
  assert (Hl1 : start_stream_id (start_stream_id l + 2 * (n - 1)) = start_stream_id l + 2 * n).
  { unfold start_stream_id at 1. rewrite odd_last_used_of_odd; [lia|].
    unfold start_stream_id.
    replace (odd_last_used l + 2 + 2 * (n - 1)) with (odd_last_used l + 2 * n) by lia.
    rewrite Z.odd_add_mul_2. apply odd_last_used_odd. }
  unfold end_stream_id. rewrite Hl1. rewrite !py_range_step2 by lia.
  eexists _, _. split; [done|]. split; [done|].
  rewrite stream_ids_append by lia. do 2 f_equal.
  unfold set_last_used_stream_id. simpl. f_equal. lia.
Qed.

(** X2.  Once [last_used_stream_id] is odd (it is 1 at construction) it
    stays odd through every session of method calls, and every stream
    identifier such a session hands out is odd. *)
Theorem last_used_stream_id_stays_odd (ops : list op) (st : state) :
  Z.odd (last_used_stream_id (self st)) = true →
  Z.odd (last_used_stream_id (self (run ops st).2)) = true
  ∧ Forall (λ i, Z.odd i = true) (ids_returned (run ops st).1).
Proof.
  revert st. induction ops as [|o ops IH]; intros st Hodd; simpl.
  { split; [done|constructor]. }
  destruct (call_last_used_odd o st Hodd) as [Hodd' Hids].
  destruct (call o st) as [r st'] eqn:Ec. simpl in *.
  destruct (IH st' Hodd') as [Hlast Hrest].
  destruct r as [v|e|]; [| |by split; [|constructor]];
    destruct (run ops st') as [rs st'']; simpl in *; (split; [done|]).
  - unfold ids_returned in *. simpl. destruct v; simpl; try done.
    apply Forall_app. split; [by apply Hids|done].
  - done.
Qed.

End AllocatorMore.

Lemma generate_stream_ids_contiguous_witness :
  let st := SpecModel.fresh (SpecModel.healthy []) in
  ∃ ids1 ids2,
    (generate_stream_ids (PyInt 2) st).1 = Ret ids1
    ∧ (generate_stream_ids (PyInt 3) (generate_stream_ids (PyInt 2) st).2).1 = Ret ids2
    ∧ generate_stream_ids (PyInt (2 + 3)) st
      = (Ret (ids1 ++ ids2),
         (generate_stream_ids (PyInt 3) (generate_stream_ids (PyInt 2) st).2).2).
Proof.
  intros st.
  apply (generate_stream_ids_contiguous (PyInt 2) (PyInt 3) 2 3 st);
    [reflexivity|lia|reflexivity|lia].
Defined.

Lemma last_used_stream_id_stays_odd_witness :
  let st := SpecModel.fresh (SpecModel.healthy []) in
  let ops := [GenerateStreamIds (PyInt 2); SendPingFrame []; GenerateStreamIds (PyInt 0);
              GenerateStreamIds (PyInt 1)] in
  Z.odd (last_used_stream_id (self st)) = true
  ∧ Z.odd (last_used_stream_id (self (run (H:=SpecModel.model) ops st).2)) = true
  ∧ Forall (λ i, Z.odd i = true) (ids_returned (run (H:=SpecModel.model) ops st).1).
Proof.
  intros st ops. split; [reflexivity|].
  apply (last_used_stream_id_stays_odd (H:=SpecModel.model) ops st). reflexivity.
Defined.

(** ** Sending, call after call *)

Section SendingMore.
Context `{Collaborators}.

Lemma send_bytes_accepted (bytes_data : bytes) (st : state) (sock : socket) :
  raw_socket (self st) = Some sock →
  next_send_outcome (env st) = None →
  send_bytes bytes_data st
  = (Ret (Some (length (io_trace (env st)))),
     {| self := self st; env := log_io (IoSend sock bytes_data None) (env st) |}).
Proof. intros Hs Hn. by rewrite (send_bytes_with_socket _ _ _ Hs), Hn. Qed.

Lemma wire_log_send (sock : socket) (d : bytes) (w : world) :
  wire (log_io (IoSend sock d None) w) = wire w ++ [d].
Proof. unfold wire. simpl. by rewrite omap_app. Qed.

(** X3.  What [send_bytes] does, by what it meets.  Without a socket it
    makes no socket call, prints the [AttributeError] and returns [None].
    With a socket it makes one [send]: when the socket takes the bytes it
    returns the time of the call; when [send] raises an [Exception] it
    prints it and returns [None]; when [send] raises a [BaseException] it
    lets it out.  In every case the connection object is left as it was. *)
Theorem send_bytes_contains_failures (bytes_data : bytes) (st : state) :
  send_bytes bytes_data st
  = match raw_socket (self st) with
    | None =>
        (Ret None,
         {| self := self st;
            env := log_console (MsgSendError (none_has_no "send")) (env st) |})
    | Some sock =>
        match next_send_outcome (env st) with
        | None =>
            (Ret (Some (length (io_trace (env st)))),
             {| self := self st;
                env := log_io (IoSend sock bytes_data None) (env st) |})
        | Some e =>
            if is_Exception e
            then (Ret None,
                  {| self := self st;
                     env := log_console (MsgSendError e)
                              (log_io (IoSend sock bytes_data (Some e)) (env st)) |})
            else (Raise e,
                  {| self := self st;
                     env := log_io (IoSend sock bytes_data (Some e)) (env st) |})
        end
    end.
Proof.
  destruct (raw_socket (self st)) as [sock|] eqn:Hs.
  - apply (send_bytes_with_socket _ _ _ Hs).
  - apply (send_bytes_without_socket _ _ Hs).
Qed.

(** One sending call on a connection whose sends all succeed. *)
Lemma call_sends (o : op) (d : bytes) (st : state) (sock : socket) :
  sent_bytes o = Some d →
  raw_socket (self st) = Some sock →
  (∀ k, send_outcome (env st) k = None) →
  ∃ v,
    (call o st).1 = Ret v
    ∧ self (call o st).2 = self st
    ∧ send_outcome (env (call o st).2) = send_outcome (env st)
    ∧ wire (env (call o st).2) = wire (env st) ++ [d].
Proof.
  intros Ho Hs Hok.
  assert (Hn : next_send_outcome (env st) = None) by apply Hok.
  destruct o; try done; simpl in Ho; injection Ho as <-; simpl;
    unfold send_frames, send_ping_frame, get_using_socket, get_self, mbind, M_bind; simpl;
    rewrite (send_bytes_accepted _ _ _ Hs Hn); simpl;
    (eexists; split_and!; [done..|apply wire_log_send]).
Qed.

(** X4.  On a connection whose socket takes every send, the byte strings of
    a series of [send_bytes], [send_frames] and [send_ping_frame] calls reach
    the wire one by one, in the order of the calls. *)
Theorem sends_reach_the_wire_in_call_order (ops : list op) (st : state) (sock : socket) :
  raw_socket (self st) = Some sock →
  (∀ k, send_outcome (env st) k = None) →
  Forall (λ o, is_Some (sent_bytes o)) ops →
  wire (env (run ops st).2) = wire (env st) ++ omap sent_bytes ops.
Proof.
  intros Hs Hok Hops. revert st Hs Hok.
  induction Hops as [|o ops [d Hd] Hops IH]; intros st Hs Hok; simpl.
  { by rewrite app_nil_r. }
  destruct (call_sends o d st sock Hd Hs Hok) as (v & Hr & Hself & Hout & Hwire).
  destruct (call o st) as [r st'] eqn:Ec. simpl in *. subst r.
  specialize (IH st'). rewrite Hself, Hout in IH. specialize (IH Hs Hok).
  destruct (run ops st') as [rs st'']. simpl in *.
  rewrite IH, Hwire, Hd. by rewrite <- app_assoc.
Qed.

Lemma create_raw_socket_opens (st : state) :
  next_connect_outcome (env st) = None →
  _create_raw_socket st
  = (Ret tt,
     {| self := set_raw_socket (Some {| fileno := length (io_trace (env st)) |}) (self st);
        env := log_console
                 (MsgConnected (truthy (proxy_hostname (self st)))
                    (hostname (self st)) (port_number (self st)))
                 (log_io
                    (IoConnect {| fileno := length (io_trace (env st)) |}
                       (hostname (self st)) (port_number (self st))
                       (truthy (proxy_hostname (self st))) None)
                    (env st)) |}).
Proof.
  intros Hc. unfold next_connect_outcome in Hc.
  unfold _create_raw_socket, _create_socks_socket, mbind, M_bind, get_self,
    socket_connect. simpl.
  destruct (truthy (proxy_hostname (self st))); simpl; by rewrite Hc.
Qed.

(** X5.  On a network that accepts the connection and takes the two sends,
    [setup_connection] makes three socket calls, in this order: the
    connect (through the proxy when one is configured), the send of the
    24-byte preface, the send of the SETTINGS frame built from the table;
    it keeps the new socket, prints its three messages, sets the closed
    flag to false and returns. *)
Theorem setup_connection_handshake (st : state) :
  next_connect_outcome (env st) = None →
  send_outcome (env st) (length (io_trace (env st)) + 1) = None →
  send_outcome (env st) (length (io_trace (env st)) + 2) = None →
  NoDup (dict_keys (DEFAULT_SETTINGS (self st))) →
  (setup_connection st).1 = Ret tt
  ∧ self (setup_connection st).2
    = set_is_connection_closed false
        (set_raw_socket (Some {| fileno := length (io_trace (env st)) |}) (self st))
  ∧ io_trace (env (setup_connection st).2)
    = io_trace (env st)
      ++ [IoConnect {| fileno := length (io_trace (env st)) |}
            (hostname (self st)) (port_number (self st))
            (truthy (proxy_hostname (self st))) None;
          IoSend {| fileno := length (io_trace (env st)) |} H2_PREFACE None;
          IoSend {| fileno := length (io_trace (env st)) |}
            (raw (create_settings_frame
                    (omap present_setting (DEFAULT_SETTINGS (self st)).*2))) None]
  ∧ console (env (setup_connection st).2)
    = console (env st)
      ++ [MsgConnected (truthy (proxy_hostname (self st)))
            (hostname (self st)) (port_number (self st));
          MsgPrefaceSent; MsgSettingsSent].
Proof.
  intros Hc Hs1 Hs2 Hnd.
  unfold setup_connection, try_except_else, mbind, M_bind.
  rewrite (create_raw_socket_opens st Hc).
  unfold _send_h2_connection_preface, mbind, M_bind.
  rewrite (send_bytes_accepted H2_PREFACE _ {| fileno := length (io_trace (env st)) |});
    [|done|].
  2: { unfold next_send_outcome. simpl. by rewrite length_app. }
  unfold print, update_env. simpl.
  unfold _send_client_initial_settings_frame, mbind, M_bind, get_self, lift. simpl.
  rewrite (settings_loop_table _ Hnd).
  rewrite (send_bytes_accepted _ _ {| fileno := length (io_trace (env st)) |});
    [|done|].
  2: { unfold next_send_outcome. simpl. rewrite !length_app. simpl.
       by replace (length (io_trace (env st)) + 1 + 1)%nat
            with (length (io_trace (env st)) + 2)%nat by lia. }
  simpl. split_and!; [done|done| |].
  - by rewrite <- !app_assoc.
  - by rewrite <- !app_assoc.
Qed.

End SendingMore.

Lemma send_bytes_contains_failures_witness :
  let unconnected := SpecModel.fresh (SpecModel.healthy []) in
  let connected := (setup_connection (H:=SpecModel.model) unconnected).2 in
  let broken := (setup_connection (H:=SpecModel.model)
                   (SpecModel.fresh SpecModel.broken_pipe)).2 in
  let sock := {| fileno := 0 |} in
  send_bytes [x01] unconnected
  = (Ret None,
     {| self := self unconnected;
        env := log_console (MsgSendError (none_has_no "send")) (env unconnected) |})
  ∧ send_bytes [x01] connected
    = (Ret (Some 3%nat),
       {| self := self connected; env := log_io (IoSend sock [x01] None) (env connected) |})
  ∧ send_bytes [x01] broken
    = (Ret None,
       {| self := self broken;
          env := log_console (MsgSendError (OSError "Broken pipe"))
                   (log_io (IoSend sock [x01] (Some (OSError "Broken pipe")))
                      (env broken)) |}).
Proof.
  intros unconnected connected broken sock. split; [|split].
  - rewrite (send_bytes_contains_failures [x01] unconnected). reflexivity.
  - rewrite (send_bytes_contains_failures [x01] connected). reflexivity.
  - rewrite (send_bytes_contains_failures [x01] broken). reflexivity.
Defined.

Lemma sends_reach_the_wire_in_call_order_witness :
  let st := (setup_connection (H:=SpecModel.model) (SpecModel.fresh (SpecModel.healthy []))).2 in
  let ops := [SendFrames SpecModel.example_post; SendPingFrame (SpecModel.str "12345678");
              SendBytes [x00]] in
  wire (env (run (H:=SpecModel.model) ops st).2)
  = wire (env st) ++ omap (sent_bytes (H:=SpecModel.model)) ops.
Proof.
  intros st ops.
  apply (sends_reach_the_wire_in_call_order (H:=SpecModel.model) ops st {| fileno := 0 |}).
  - reflexivity.
  - intros k. reflexivity.
  - repeat constructor; eexists; reflexivity.
Defined.

Lemma setup_connection_handshake_witness :
  let st := SpecModel.fresh (SpecModel.healthy []) in
  (setup_connection (H:=SpecModel.model) st).1 = Ret tt
  ∧ self (setup_connection (H:=SpecModel.model) st).2
    = set_is_connection_closed false (set_raw_socket (Some {| fileno := 0 |}) (self st))
  ∧ wire (env (setup_connection (H:=SpecModel.model) st).2)
    = [H2_PREFACE;
       SpecModel.model_raw
         (create_settings_frame (Collaborators:=SpecModel.model)
            (omap present_setting default_settings_table.*2))].
Proof.
  intros st.
  destruct (setup_connection_handshake (H:=SpecModel.model) st) as (Hr & Hself & Htrace & _).
  - reflexivity.
  - reflexivity.
  - reflexivity.
  - apply (bool_decide_unpack _). vm_compute. exact I.
  - split; [exact Hr|]. split; [exact Hself|].
    unfold wire. rewrite Htrace. reflexivity.
Defined.

Lemma setup_connection_connect_failure_witness :
  let st := SpecModel.fresh SpecModel.unreachable in
  (setup_connection (H:=SpecModel.model) st).1 = Raise (SystemExit 1)
  ∧ self (setup_connection (H:=SpecModel.model) st).2 = self st
  ∧ console (env (setup_connection (H:=SpecModel.model) st).2)
    = console (env st) ++ [MsgSetupError (OSError "Connection refused")]
  ∧ send_calls (env (setup_connection (H:=SpecModel.model) st).2) = send_calls (env st).
Proof.
  intros st.
  apply (setup_connection_connect_failure (H:=SpecModel.model) st
           (OSError "Connection refused")); reflexivity.
Defined.

(** ** Reading and listening *)

Section ReaderMore.
Context `{Collaborators}.

(** The loop on a run of non-empty reads followed by anything else. *)
Lemma recv_loop_run (sock : socket) (chunks : list bytes) (ev : recv_event)
    (rest : list recv_event) (response : bytes) (st : state) :
  Forall (λ d, d ≠ []) chunks →
  (∀ x d, ev ≠ Received (x :: d)) →
  recv_loop sock ((Received <$> chunks) ++ ev :: rest) response st
  = (match ev with
     | Received _ => Ret (response ++ concat chunks)
     | RecvRaises e =>
         if is_socket_timeout e then Ret (response ++ concat chunks) else Raise e
     end,
     {| self := self st;
        env := {| connect_outcome := connect_outcome (env st);
                  send_outcome := send_outcome (env st);
                  settimeout_outcome := settimeout_outcome (env st);
                  inbound := rest;
                  io_trace := io_trace (env st)
                              ++ (IoRecv sock <$> ((Received <$> chunks) ++ [ev]));
                  console := console (env st) |} |}).
Proof.
  intros Hne Hev. revert response st.
  induction Hne as [|d chunks Hd Hne IH]; intros response st; simpl.
  - rewrite app_nil_r. destruct ev as [[|x d]|e]; [done|by destruct (Hev x d)|].
    by destruct (is_socket_timeout e).
  - destruct d as [|x d]; [done|]. rewrite IH. simpl.
    rewrite <- !app_assoc. by destruct ev as [?|e]; [|destruct (is_socket_timeout e)].
Qed.

(** X7.  When a read fails with anything but a timeout,
    [read_response_from_socket] raises that error: what the earlier reads
    had gathered is not returned. *)
Theorem read_response_from_socket_propagates_errors (_timeout : pyval) (st : state)
    (sock : socket) (chunks : list bytes) (e : exn) (rest : list recv_event) :
  raw_socket (self st) = Some sock →
  settimeout_outcome (env st) (timeout_in_force _timeout (self st)) = None →
  inbound (env st) = (Received <$> chunks) ++ RecvRaises e :: rest →
  Forall (λ d, d ≠ []) chunks →
  is_socket_timeout e = false →
  (read_response_from_socket _timeout st).1 = Raise e
  ∧ inbound (env (read_response_from_socket _timeout st).2) = rest.
Proof.
  intros Hs Ht Hin Hne He.
  rewrite (read_response_from_socket_ready _ _ _ Hs Ht), Hin.
  rewrite (recv_loop_run sock chunks (RecvRaises e) rest [] _ Hne) by done.
  by rewrite He.
Qed.

(** X8.  A drain is one [settimeout], with the argument or with
    [read_timeout] when the argument is [None], followed by one [recv] for
    each non-empty read and one for the empty read or timeout that ends
    it: nothing else is asked of the socket, and nothing is printed. *)
Theorem read_response_from_socket_socket_calls (_timeout : pyval) (st : state)
    (sock : socket) (chunks : list bytes) (stop : recv_event) (rest : list recv_event) :
  raw_socket (self st) = Some sock →
  settimeout_outcome (env st) (timeout_in_force _timeout (self st)) = None →
  inbound (env st) = (Received <$> chunks) ++ stop :: rest →
  Forall (λ d, d ≠ []) chunks →
  ends_drain stop →
  io_trace (env (read_response_from_socket _timeout st).2)
  = io_trace (env st)
    ++ IoSetTimeout sock (timeout_in_force _timeout (self st)) None
       :: (IoRecv sock <$> ((Received <$> chunks) ++ [stop]))
  ∧ console (env (read_response_from_socket _timeout st).2) = console (env st)
  ∧ self (read_response_from_socket _timeout st).2 = self st.
Proof.
  intros Hs Ht Hin Hne Hstop.
  rewrite (read_response_from_socket_ready _ _ _ Hs Ht), Hin.
  rewrite (recv_loop_run sock chunks stop rest [] _ Hne).
  - simpl. split; [|done]. by rewrite <- app_assoc.
  - intros x d. by destruct Hstop as [->| ->].
Qed.

(** X9.  The listener never writes to the connection object, however it
    ends; and on a closed connection it returns at once, having called
    nothing and printed nothing. *)
Theorem listener_reads_the_flag_only (rounds : nat) (_timeout : pyval) (st : state) :
  self (__thread_response_frame_parsing rounds _timeout st).2 = self st
  ∧ (is_connection_closed (self st) = true →
     __thread_response_frame_parsing rounds _timeout st = (Ret tt, st)).
Proof.
  split.
  - apply (keeps_thread_response_frame_parsing (λ c, c)).
  - intros Hclosed. unfold __thread_response_frame_parsing, try_except.
    destruct rounds; simpl; unfold mbind, M_bind, get_self; simpl; rewrite Hclosed;
      by destruct st.
Qed.

End ReaderMore.

Lemma read_response_from_socket_propagates_errors_witness :
  let script := [Received [x01]; RecvRaises (OSError "Connection reset by peer");
                 Received [x02]] in
  let st := (setup_connection (H:=SpecModel.model)
               (SpecModel.fresh (SpecModel.healthy script))).2 in
  (read_response_from_socket PyNone st).1 = Raise (OSError "Connection reset by peer")
  ∧ inbound (env (read_response_from_socket PyNone st).2) = [Received [x02]].
Proof.
  intros script st.
  apply (read_response_from_socket_propagates_errors PyNone st {| fileno := 0 |} [[x01]]
           (OSError "Connection reset by peer") [Received [x02]]).
  - reflexivity.
  - reflexivity.
  - reflexivity.
  - repeat constructor. discriminate.
  - reflexivity.
Defined.

Lemma read_response_from_socket_socket_calls_witness :
  let script := [Received [x01]; Received []] in
  let st := (setup_connection (H:=SpecModel.model)
               (SpecModel.fresh (SpecModel.healthy script))).2 in
  let sock := {| fileno := 0 |} in
  io_trace (env (read_response_from_socket PyNone st).2)
  = io_trace (env st)
    ++ [IoSetTimeout sock (PyInt 3) None; IoRecv sock (Received [x01]);
        IoRecv sock (Received [])]
  ∧ console (env (read_response_from_socket PyNone st).2) = console (env st)
  ∧ self (read_response_from_socket PyNone st).2 = self st.
Proof.
  intros script st sock.
  apply (read_response_from_socket_socket_calls PyNone st sock [[x01]] (Received []) []).
  - reflexivity.
  - reflexivity.
  - reflexivity.
  - repeat constructor. discriminate.
  - left. reflexivity.
Defined.

Lemma listener_reads_the_flag_only_witness :
  let closed := SpecModel.fresh (SpecModel.healthy [Received [x01]]) in
  is_connection_closed (self closed) = true
  ∧ __thread_response_frame_parsing (H:=SpecModel.model) 5 (PyFloat 1 (-1)) closed
    = (Ret tt, closed).
Proof.
  intros closed. split; [reflexivity|].
  apply (listener_reads_the_flag_only (H:=SpecModel.model) 5 (PyFloat 1 (-1)) closed).
  reflexivity.
Defined.

(** ** The splitter at its edges *)

Section SplitterMore.
Context `{Collaborators}.

Lemma slices_rejoin (d : bytes) : but_last_slice d ++ last_slice d = d.
Proof. unfold but_last_slice, last_slice. apply take_drop. Qed.

(** X10.  For a request with a body, whatever frames the builder hands
    back, as long as the last one is a DATA frame with the end-of-stream
    flag: the split touches that last frame only.  The frames before it are
    returned as they are; the last one keeps its stream and its other flags
    and loses the end-of-stream flag and its last byte, which goes to the
    trigger frame.  When the last DATA frame is empty the trigger frame is
    empty too. *)
Theorem single_packet_split_touches_last_frame_only
    (authority scheme path headers_string : pystr) (sid : Z) (body : pystr)
    (check_headers_lowercase : bool) (method : pystr) (b : bytes)
    (init : H2Seq) (f : H2Frame) (d : bytes) :
  body ≠ [] →
  utf8_encode body = Ret b →
  create_headers_frame method authority scheme path
    (if check_headers_lowercase then make_header_names_small headers_string
     else headers_string) sid (BodyBytes b) = Ret (init ++ [f]) →
  frame_data f = Some d →
  "ES" ∈ flags f →
  create_single_packet_http2_request_frames authority scheme path headers_string sid
    (Some body) check_headers_lowercase method
  = Ret (init ++ [ {| flags := flags f ∖ {["ES"%string]}; stream_id := stream_id f;
                      payload := H2DataFrame (but_last_slice d) |} ],
         {| flags := {["ES"%string]}; stream_id := sid;
            payload := H2DataFrame (last_slice d) |})
  ∧ but_last_slice d ++ last_slice d = d
  ∧ (d = [] → last_slice d = []).
Proof.
  intros Hne Henc Hcodec Hd Hes. split_and!.
  - unfold create_single_packet_http2_request_frames.
    rewrite (encode_body_nonempty body b Hne Henc).
    unfold mbind at 1, outcome_bind at 1. rewrite Hcodec.
    unfold mbind, outcome_bind.
    rewrite (last_frame_data_snoc init f _ Hd).
    rewrite (set_last_frame_data_snoc init f _ _ Hd).
    by rewrite (remove_last_frame_flag_snoc init
                  (set_payload (H2DataFrame (but_last_slice d)) f) "ES" Hes).
  - apply slices_rejoin.
  - by intros ->.
Qed.

(** X11.  An empty string is not [None]: the request is built without a
    body, yet the split takes the branch for requests with one, and when the
    last frame built is not a DATA frame it raises the [AttributeError] of
    reading [data] on it. *)
Theorem single_packet_split_empty_string_body
    (authority scheme path headers_string : pystr) (sid : Z)
    (check_headers_lowercase : bool) (method : pystr) (fs : H2Seq) (f : H2Frame) :
  create_headers_frame method authority scheme path
    (if check_headers_lowercase then make_header_names_small headers_string
     else headers_string) sid (BodyStr []) = Ret fs →
  last fs = Some f →
  frame_data f = None →
  create_single_packet_http2_request_frames authority scheme path headers_string sid
    (Some []) check_headers_lowercase method
  = Raise (AttributeError "data").
Proof.
  intros Hcodec Hlast Hd. unfold create_single_packet_http2_request_frames. simpl encode_body.
  unfold mbind at 1, outcome_bind at 1.
  unfold mbind at 1, outcome_bind at 1. rewrite Hcodec.
  unfold mbind, outcome_bind, last_frame_data. by rewrite Hlast, Hd.
Qed.

(** X12.  For a request without a body, when the last frame built does not
    hold the end-of-stream flag (the flag sits on an earlier frame, or on
    none), the split raises the [KeyError] of removing it; when the builder
    hands back no frame at all it raises an [IndexError]. *)
Theorem single_packet_split_needs_end_stream_on_last
    (authority scheme path headers_string : pystr) (sid : Z)
    (check_headers_lowercase : bool) (method : pystr) (fs : H2Seq) :
  create_headers_frame method authority scheme path
    (if check_headers_lowercase then make_header_names_small headers_string
     else headers_string) sid BodyNone = Ret fs →
  (∀ f, last fs = Some f → "ES" ∉ flags f) →
  create_single_packet_http2_request_frames authority scheme path headers_string sid
    None check_headers_lowercase method
  = Raise (match last fs with Some _ => KeyError "ES" | None => index_error end).
Proof.
  intros Hcodec Hes. unfold create_single_packet_http2_request_frames. simpl encode_body.
  unfold mbind at 1, outcome_bind at 1.
  unfold mbind at 1, outcome_bind at 1. rewrite Hcodec.
  unfold mbind, outcome_bind, remove_last_frame_flag.
  destruct (last fs) as [f|]; [|done].
  destruct (decide ("ES" ∈ flags f)) as [Hin|_]; [|done]. by destruct (Hes f eq_refl).
Qed.

Lemma utf8_encode_cp_surrogate (c : N) : is_surrogate c → utf8_encode_cp c = None.
Proof.
  intros [Hlo Hhi]. unfold utf8_encode_cp.
  destruct (N.ltb_spec c 128) as [?|_]; [lia|].
  destruct (N.ltb_spec c 2048) as [?|_]; [lia|].
  destruct (N.leb_spec 55296 c) as [_|?]; [|lia].
  destruct (N.leb_spec c 57343) as [_|?]; [done|lia].
Qed.

Lemma utf8_encode_surrogate (s : pystr) :
  Exists is_surrogate s → utf8_encode s = Raise UnicodeEncodeError.
Proof.
  induction 1 as [c s Hc|c s Hs IH]; simpl.
  - by rewrite (utf8_encode_cp_surrogate c Hc).
  - destruct (utf8_encode_cp c); [|done]. by rewrite IH.
Qed.

(** X13.  A body that holds a lone surrogate cannot be encoded: building
    the request, split or not, raises [UnicodeEncodeError], and the frame
    builder is never reached (whatever it would have done). *)
Theorem unencodable_body_raises
    (method authority scheme path headers_string : pystr) (sid : Z) (body : pystr)
    (check_headers_lowercase : bool) :
  Exists is_surrogate body →
  create_single_packet_http2_request_frames authority scheme path headers_string sid
    (Some body) check_headers_lowercase method = Raise UnicodeEncodeError
  ∧ create_simple_http2_request method authority scheme path headers_string sid
      (Some body) check_headers_lowercase = Raise UnicodeEncodeError.
Proof.
  intros Hs.
  assert (Henc : encode_body (Some body) = Raise UnicodeEncodeError).
  { unfold encode_body. destruct body as [|c body]; [by apply Exists_nil in Hs|].
    simpl truthy. cbv iota. by rewrite (utf8_encode_surrogate _ Hs). }
  unfold create_single_packet_http2_request_frames, create_simple_http2_request.
  by rewrite Henc.
Qed.

(** X14.  [send_simple_http2_request] without a body ([None] or the empty
    string) raises [UnboundLocalError]: [body_bytes] was never assigned.
    Nothing is sent, nothing is printed, nothing is changed. *)
Theorem send_simple_http2_request_needs_a_body
    (method authority scheme path headers_string : pystr) (sid : Z) (body : option pystr)
    (check_headers_lowercase : bool) (st : state) :
  truthy body = false →
  send_simple_http2_request method authority scheme path headers_string sid body
    check_headers_lowercase st
  = (Raise (UnboundLocalError "body_bytes"), st).
Proof.
  intros Hb. unfold send_simple_http2_request, mbind, M_bind, lift. rewrite Hb.
  by destruct st.
Qed.

(** X15.  With a body, [send_simple_http2_request] hands to the socket, in
    one [send], the serialisation of exactly the frames that
    [create_simple_http2_request] builds for the same arguments. *)
Theorem send_simple_http2_request_sends_the_built_request
    (method authority scheme path headers_string : pystr) (sid : Z) (body : pystr)
    (check_headers_lowercase : bool) (fs : H2Seq) (st : state) (sock : socket) :
  body ≠ [] →
  create_simple_http2_request method authority scheme path headers_string sid
    (Some body) check_headers_lowercase = Ret fs →
  raw_socket (self st) = Some sock →
  io_trace (env (send_simple_http2_request method authority scheme path headers_string
                   sid (Some body) check_headers_lowercase st).2)
  = io_trace (env st) ++ [IoSend sock (raw_seq fs) (next_send_outcome (env st))].
Proof.
  intros Hne Hbuilt Hs.
  unfold create_simple_http2_request, encode_body in Hbuilt.
  unfold send_simple_http2_request.
  destruct body as [|c body]; [done|]. simpl truthy in *. cbv iota in Hbuilt.
  simpl default. unfold mbind at 1, M_bind at 1, lift at 1.
  destruct (utf8_encode (c :: body)) as [b| |]; simpl in Hbuilt; [|done..].
  unfold mbind at 1, outcome_bind at 1. cbv iota beta.
  unfold mbind at 1, M_bind at 1, lift. rewrite Hbuilt.
  pose proof (send_bytes_trace (raw_seq fs) st sock Hs) as Ht.
  unfold mbind, M_bind.
  destruct (send_bytes (raw_seq fs) st) as [[t|e|] st']; simpl in *; done.
Qed.

End SplitterMore.

Lemma single_packet_split_touches_last_frame_only_witness :
  create_single_packet_http2_request_frames (H:=SpecModel.model)
    (SpecModel.str "example.com") (SpecModel.str "https") (SpecModel.str "/")
    (SpecModel.str "User-Agent: h2") 3 (Some (SpecModel.str "abc")) true
    (SpecModel.str "POST")
  = Ret ([ {| flags := {["EH"%string]}; stream_id := 3;
              payload := H2HeadersFrame (SpecModel.example_hdrs "POST") |} ]
         ++ [ {| flags := {["ES"%string]} ∖ {["ES"%string]}; stream_id := 3;
                 payload := H2DataFrame (but_last_slice [x61; x62; x63]) |} ],
         {| flags := {["ES"%string]}; stream_id := 3;
            payload := H2DataFrame (last_slice [x61; x62; x63]) |})
  ∧ but_last_slice [x61; x62; x63] ++ last_slice [x61; x62; x63] = [x61; x62; x63]
  ∧ ([x61; x62; x63] = [] → last_slice [x61; x62; x63] = []).
Proof.
  assert (Hw := single_packet_split_touches_last_frame_only (H:=SpecModel.model)
           (SpecModel.str "example.com") (SpecModel.str "https") (SpecModel.str "/")
           (SpecModel.str "User-Agent: h2") 3 (SpecModel.str "abc") true
           (SpecModel.str "POST") [x61; x62; x63]
           [ {| flags := {["EH"%string]}; stream_id := 3;
                payload := H2HeadersFrame (SpecModel.example_hdrs "POST") |} ]
           {| flags := {["ES"%string]}; stream_id := 3;
              payload := H2DataFrame [x61; x62; x63] |}
           [x61; x62; x63]).
  cbn [flags stream_id] in Hw. apply Hw.
  - discriminate.
  - reflexivity.
  - vm_compute. reflexivity.
  - reflexivity.
  - apply elem_of_singleton_2. reflexivity.
Defined.

Lemma single_packet_split_empty_string_body_witness :
  create_single_packet_http2_request_frames (H:=SpecModel.model)
    (SpecModel.str "example.com") (SpecModel.str "https") (SpecModel.str "/")
    (SpecModel.str "User-Agent: h2") 3 (Some []) true (SpecModel.str "GET")
  = Raise (AttributeError "data").
Proof.
  eapply (single_packet_split_empty_string_body (H:=SpecModel.model)
            (SpecModel.str "example.com") (SpecModel.str "https") (SpecModel.str "/")
            (SpecModel.str "User-Agent: h2") 3 true (SpecModel.str "GET")
            SpecModel.example_get).
  - vm_compute. reflexivity.
  - reflexivity.
  - reflexivity.
Defined.

Lemma single_packet_split_needs_end_stream_on_last_witness :
  create_single_packet_http2_request_frames (H:=continued_builder)
    (SpecModel.str "example.com") (SpecModel.str "https") (SpecModel.str "/")
    (SpecModel.str "user-agent: h2") 3 None false (SpecModel.str "GET")
  = Raise (KeyError "ES").
Proof.
  apply (single_packet_split_needs_end_stream_on_last (H:=continued_builder)
           (SpecModel.str "example.com") (SpecModel.str "https") (SpecModel.str "/")
           (SpecModel.str "user-agent: h2") 3 false (SpecModel.str "GET")
           [ {| flags := {["ES"%string]}; stream_id := 3;
                payload := H2HeadersFrame
                  [(SpecModel.str ":method", SpecModel.str "GET");
                   (SpecModel.str ":authority", SpecModel.str "example.com");
                   (SpecModel.str ":scheme", SpecModel.str "https");
                   (SpecModel.str ":path", SpecModel.str "/")] |};
             {| flags := {["EH"%string]}; stream_id := 3;
                payload := H2ContinuationFrame
                  [(SpecModel.str "user-agent", SpecModel.str " h2")] |} ]).
  - vm_compute. reflexivity.
  - intros f [= <-]. cbn [flags]. apply not_elem_of_singleton_2. discriminate.
Defined.

Lemma unencodable_body_raises_witness :
  create_single_packet_http2_request_frames (H:=SpecModel.model)
    (SpecModel.str "example.com") (SpecModel.str "https") (SpecModel.str "/")
    [] 3 (Some [97; 55296; 98]%N) true (SpecModel.str "POST") = Raise UnicodeEncodeError
  ∧ create_simple_http2_request (H:=SpecModel.model)
      (SpecModel.str "POST") (SpecModel.str "example.com") (SpecModel.str "https")
      (SpecModel.str "/") [] 3 (Some [97; 55296; 98]%N) true = Raise UnicodeEncodeError.
Proof.
  apply (unencodable_body_raises (H:=SpecModel.model)).
  apply Exists_cons_tl. apply Exists_cons_hd. split; lia.
Defined.

Lemma send_simple_http2_request_needs_a_body_witness :
  let st := (setup_connection (H:=SpecModel.model) (SpecModel.fresh (SpecModel.healthy []))).2 in
  send_simple_http2_request (H:=SpecModel.model)
    (SpecModel.str "GET") (SpecModel.str "example.com") (SpecModel.str "https")
    (SpecModel.str "/") [] 3 None true st
  = (Raise (UnboundLocalError "body_bytes"), st).
Proof.
  intros st. apply (send_simple_http2_request_needs_a_body (H:=SpecModel.model)).
  reflexivity.
Defined.

Lemma send_simple_http2_request_sends_the_built_request_witness :
  let st := (setup_connection (H:=SpecModel.model) (SpecModel.fresh (SpecModel.healthy []))).2 in
  io_trace (env (send_simple_http2_request (H:=SpecModel.model)
                   (SpecModel.str "POST") (SpecModel.str "example.com")
                   (SpecModel.str "https") (SpecModel.str "/")
                   (SpecModel.str "User-Agent: h2") 3 (Some (SpecModel.str "abc")) true st).2)
  = io_trace (env st)
    ++ [IoSend {| fileno := 0 |}
          (raw_seq (Collaborators:=SpecModel.model) SpecModel.example_post)
          (next_send_outcome (env st))].
Proof.
  intros st.
  apply (send_simple_http2_request_sends_the_built_request (H:=SpecModel.model)).
  - discriminate.
  - vm_compute. reflexivity.
  - reflexivity.
Defined.

(** ** The two versions of the class *)

Section Versions.
Context `{Collaborators}.

(** X16.  For a request with a body argument other than [None], the
    splitter of the later class does exactly what
    [create_single_packet_http2_post_request_frames] of the first version
    does: same result, same exception. *)
Theorem splitter_agrees_with_first_version
    (authority scheme path headers_string : pystr) (sid : Z) (body : pystr)
    (check_headers_lowercase : bool) (method : pystr) :
  create_single_packet_http2_request_frames authority scheme path headers_string sid
    (Some body) check_headers_lowercase method
  = Legacy.create_single_packet_http2_post_request_frames authority scheme path
      headers_string sid (Some body) check_headers_lowercase method.
Proof.
  unfold create_single_packet_http2_request_frames,
    Legacy.create_single_packet_http2_post_request_frames, encode_body.
  destruct body as [|c body]; simpl truthy; cbv iota; [done|].
  by destruct (utf8_encode (c :: body)).
Qed.

(** X17.  For a request without a body the two versions part: when the
    builder ends the request with a frame that is not a DATA frame, holding
    the end-of-stream flag, the first version raises the [AttributeError]
    of reading [data] on it, and the later one returns the request with the
    flag moved to an empty trigger frame. *)
Theorem first_version_has_no_bodyless_split
    (authority scheme path headers_string : pystr) (sid : Z)
    (check_headers_lowercase : bool) (method : pystr) (init : H2Seq) (f : H2Frame) :
  create_headers_frame method authority scheme path
    (if check_headers_lowercase then make_header_names_small headers_string
     else headers_string) sid BodyNone = Ret (init ++ [f]) →
  frame_data f = None →
  "ES" ∈ flags f →
  Legacy.create_single_packet_http2_post_request_frames authority scheme path
    headers_string sid None check_headers_lowercase method
  = Raise (AttributeError "data")
  ∧ create_single_packet_http2_request_frames authority scheme path headers_string sid
      None check_headers_lowercase method
    = Ret (init ++ [set_flags (flags f ∖ {["ES"%string]}) f],
           {| flags := {["ES"%string]}; stream_id := sid; payload := H2DataFrame [] |}).
Proof.
  intros Hcodec Hd Hes. split.
  - unfold Legacy.create_single_packet_http2_post_request_frames. simpl encode_body.
    unfold mbind at 1, outcome_bind at 1.
    unfold mbind at 1, outcome_bind at 1. rewrite Hcodec.
    unfold mbind, outcome_bind, last_frame_data. by rewrite last_snoc, Hd.
  - unfold create_single_packet_http2_request_frames. simpl encode_body.
    unfold mbind at 1, outcome_bind at 1.
    unfold mbind at 1, outcome_bind at 1. rewrite Hcodec.
    unfold mbind, outcome_bind.
    by rewrite (remove_last_frame_flag_snoc init f "ES" Hes).
Qed.

(** X18.  The two versions of [send_bytes] make the same socket call and
    leave the connection object alone; they differ in what the caller
    sees.  Where the first version returns, the later one returns the time
    of the call; where the first version raises an [Exception], the later
    one has printed it and returns [None]; a [BaseException] gets out of
    both. *)
Theorem send_bytes_versions (bytes_data : bytes) (st : state) :
  io_trace (env (Legacy.send_bytes bytes_data st).2)
  = io_trace (env (send_bytes bytes_data st).2)
  ∧ self (Legacy.send_bytes bytes_data st).2 = self st
  ∧ self (send_bytes bytes_data st).2 = self st
  ∧ match (Legacy.send_bytes bytes_data st).1 with
    | Ret _ => (send_bytes bytes_data st).1 = Ret (Some (length (io_trace (env st))))
    | Raise e =>
        (send_bytes bytes_data st).1 = (if is_Exception e then Ret None else Raise e)
        ∧ (is_Exception e = true →
           console (env (send_bytes bytes_data st).2)
           = console (env st) ++ [MsgSendError e])
    | Blocked => False
    end.
Proof.
  unfold Legacy.send_bytes, Legacy.get_using_socket, get_self, mbind, M_bind. simpl.
  destruct (raw_socket (self st)) as [sock|] eqn:Hs.
  - rewrite (send_bytes_with_socket _ _ _ Hs). simpl. unfold next_send_outcome.
    destruct (send_outcome (env st) (length (io_trace (env st)))) as [e|]; simpl; [|done].
    by destruct (is_Exception e).
  - by rewrite (send_bytes_without_socket _ _ Hs).
Qed.

(** X19.  The two versions of [read_response_from_socket] do the same
    whenever the timeout can be set.  On a connection that holds no socket
    the first version raises the [AttributeError] of [None.settimeout],
    where the later one returns the empty buffer. *)
Theorem read_response_from_socket_versions (_timeout : pyval) (st : state) :
  (∀ sock,
     raw_socket (self st) = Some sock →
     settimeout_outcome (env st) (timeout_in_force _timeout (self st)) = None →
     Legacy.read_response_from_socket _timeout st = read_response_from_socket _timeout st)
  ∧ (raw_socket (self st) = None →
     Legacy.read_response_from_socket _timeout st
     = (Raise (none_has_no "settimeout"), st)
     ∧ read_response_from_socket _timeout st = (Ret [], st)).
Proof.
  split.
  - intros sock Hs Ht. unfold timeout_in_force in Ht.
    rewrite (read_response_from_socket_ready _ _ _ Hs Ht).
    unfold Legacy.read_response_from_socket, Legacy.get_using_socket, get_self,
      mbind, M_bind. simpl. rewrite Hs. simpl. by rewrite Ht.
  - intros Hs.
    unfold Legacy.read_response_from_socket, Legacy.get_using_socket,
      read_response_from_socket, get_using_socket, get_self, mbind, M_bind, try_except.
    simpl. rewrite Hs. simpl. by destruct st.
Qed.

(** X20.  [create_single_packet_http2_get_request_frames] of the first
    version builds the request with [body=None] whatever body it is given
    (as long as that body can be encoded), and, header names made small
    being left as they are by a second pass, with the header names made
    small whatever [check_headers_lowercase] says. *)
Theorem get_request_frames_ignore_body_and_flag
    (authority scheme path headers_string : pystr) (sid : Z)
    (check_headers_lowercase : bool) (body : option pystr) (method : pystr) (b : body_arg) :
  encode_body body = Ret b →
  make_header_names_small (make_header_names_small headers_string)
  = make_header_names_small headers_string →
  Legacy.create_single_packet_http2_get_request_frames authority scheme path
    headers_string sid check_headers_lowercase body method
  = create_headers_frame method authority scheme path
      (make_header_names_small headers_string) sid BodyNone.
Proof.
  intros Hb Hidem. unfold Legacy.create_single_packet_http2_get_request_frames.
  rewrite Hb. unfold mbind, outcome_bind.
  destruct check_headers_lowercase; [by rewrite Hidem|done].
Qed.

End Versions.

Lemma first_version_has_no_bodyless_split_witness :
  Legacy.create_single_packet_http2_post_request_frames (H:=SpecModel.model)
    (SpecModel.str "example.com") (SpecModel.str "https") (SpecModel.str "/")
    (SpecModel.str "User-Agent: h2") 3 None true (SpecModel.str "GET")
  = Raise (AttributeError "data")
  ∧ create_single_packet_http2_request_frames (H:=SpecModel.model)
      (SpecModel.str "example.com") (SpecModel.str "https") (SpecModel.str "/")
      (SpecModel.str "User-Agent: h2") 3 None true (SpecModel.str "GET")
    = Ret ([] ++ [ {| flags := {["EH"%string; "ES"%string]} ∖ {["ES"%string]};
                       stream_id := 3;
                       payload := H2HeadersFrame (SpecModel.example_hdrs "GET") |} ],
           {| flags := {["ES"%string]}; stream_id := 3; payload := H2DataFrame [] |}).
Proof.
  assert (Hw := first_version_has_no_bodyless_split (H:=SpecModel.model)
           (SpecModel.str "example.com") (SpecModel.str "https") (SpecModel.str "/")
           (SpecModel.str "User-Agent: h2") 3 true (SpecModel.str "GET") []
           {| flags := {["EH"%string; "ES"%string]}; stream_id := 3;
              payload := H2HeadersFrame (SpecModel.example_hdrs "GET") |}).
  cbn [flags stream_id payload set_flags] in Hw. apply Hw.
  - vm_compute. reflexivity.
  - reflexivity.
  - apply elem_of_union_r. apply elem_of_singleton_2. reflexivity.
Defined.

Lemma read_response_from_socket_versions_witness :
  let script := [Received [x01]; RecvRaises SocketTimeout] in
  let st := (setup_connection (H:=SpecModel.model)
               (SpecModel.fresh (SpecModel.healthy script))).2 in
  let unconnected := SpecModel.fresh (SpecModel.healthy script) in
  Legacy.read_response_from_socket PyNone st = read_response_from_socket PyNone st
  ∧ Legacy.read_response_from_socket PyNone unconnected
    = (Raise (none_has_no "settimeout"), unconnected)
  ∧ read_response_from_socket PyNone unconnected = (Ret [], unconnected).
Proof.
  intros script st unconnected. split.
  - apply (proj1 (read_response_from_socket_versions PyNone st) {| fileno := 0 |});
      reflexivity.
  - apply (proj2 (read_response_from_socket_versions PyNone unconnected)). reflexivity.
Defined.

Lemma get_request_frames_ignore_body_and_flag_witness :
  Legacy.create_single_packet_http2_get_request_frames (H:=SpecModel.model)
    (SpecModel.str "example.com") (SpecModel.str "https") (SpecModel.str "/")
    (SpecModel.str "User-Agent: h2") 3 true (Some (SpecModel.str "abc"))
    (SpecModel.str "GET")
  = create_headers_frame (Collaborators:=SpecModel.model)
      (SpecModel.str "GET") (SpecModel.str "example.com") (SpecModel.str "https")
      (SpecModel.str "/")
      (make_header_names_small (Collaborators:=SpecModel.model)
         (SpecModel.str "User-Agent: h2")) 3 BodyNone.
Proof.
  apply (get_request_frames_ignore_body_and_flag (H:=SpecModel.model)
           (SpecModel.str "example.com") (SpecModel.str "https") (SpecModel.str "/")
           (SpecModel.str "User-Agent: h2") 3 true (Some (SpecModel.str "abc"))
           (SpecModel.str "GET") (BodyBytes [x61; x62; x63])).
  - reflexivity.
  - reflexivity.
Defined.
